(** * Library management application (src/app.py): model and verification

    The Flask view functions are embedded as state-passing functions over the
    three SQL tables.  A table is a finite map from primary key to row; one
    request is one transaction, so a view function maps the store before the
    request to the store after it, together with the HTTP response. *)

From Stdlib Require Import ZArith String Ascii.
From stdpp Require Import base option gmap fin_maps strings.

Local Open Scope string_scope.
Local Open Scope Z_scope.

(** ** Rows and tables *)

(** Row of [class User]; the key of the table is the [id] column. *)
Record User := mkUser {
  fullname : string;
  username : string;
  email : string;
  password_hash : string;
  created_at : Z
}.

(** Row of [class Book].  [isbn] is the only text column the views leave
    [NULL]: [request.form.get('isbn')] is [None] when the field is absent. *)
Record Book := mkBook {
  title : string;
  author : string;
  isbn : option string;
  quantity : Z;
  available : bool
}.

(** Row of [class Borrow]; timestamps are seconds on the server clock. *)
Record Borrow := mkBorrow {
  user_id : Z;
  book_id : Z;
  borrowed_at : Z;
  returned_at : option Z
}.

Record DB := mkDB {
  user_table : gmap Z User;
  book_table : gmap Z Book;
  borrow_table : gmap Z Borrow
}.

Definition empty_db : DB := mkDB ∅ ∅ ∅.

#[global] Instance User_eq_dec : EqDecision User.
Proof. solve_decision. Defined.
#[global] Instance Book_eq_dec : EqDecision Book.
Proof. solve_decision. Defined.
#[global] Instance Borrow_eq_dec : EqDecision Borrow.
Proof. solve_decision. Defined.

(** Largest primary key in a table, 0 for an empty table. *)
Definition max_id {A} (m : gmap Z A) : Z :=
  map_fold (λ k _ acc, Z.max k acc) 0 m.

(** [INTEGER PRIMARY KEY] without [AUTOINCREMENT]: an inserted row gets the
    largest key in the table plus one (1 in an empty table); keys are
    positive. *)
Definition next_id {A} (m : gmap Z A) : Z := max_id m + 1.

Definition set_quantity (q : Z) (b : Book) : Book :=
  mkBook (title b) (author b) (isbn b) q (available b).
Definition set_available (a : bool) (b : Book) : Book :=
  mkBook (title b) (author b) (isbn b) (quantity b) a.
Definition set_returned_at (t : option Z) (r : Borrow) : Borrow :=
  mkBorrow (user_id r) (book_id r) (borrowed_at r) t.

(** ** Requests and responses *)

Inductive http_method := GET | POST.

(** What a view reads from the request besides its form: the method, the
    user id held by the session cookie, and the value [datetime.utcnow()]
    takes while the request is served. *)
Record context := mkContext {
  method : http_method;
  session_user : option Z;
  now : Z
}.

Inductive category := success | danger | info | message.

Inductive exception :=
| ValueError | IntegrityError | AttributeError | OverflowError | OperationalError.

Inductive page :=
| RegisterPage
| LoginPage
| DashboardPage (total_books total_users borrowed : nat)
| BooksPage (listed : gmap Z Book) (q : string)
| AddBookPage
| EditBookPage (book : Book).

(** Outcome of a view: [redirect(url_for(endpoint))] after at most one
    [flash], a rendered template, the 404 answer of [get_or_404], or an
    exception that leaves the view (answered with status 500). *)
Inductive response :=
| Redirect (endpoint : string) (flashed : option (category * string))
| Render (p : page)
| NotFound
| ServerError (e : exception).

(** The INTEGER of SQLite is a signed 64-bit number.  Python's integers are
    not bounded, and binding one outside this range to a statement raises
    [OverflowError]. *)
Definition max_integer : Z := 2 ^ 63 - 1.
Definition min_integer : Z := - 2 ^ 63.

Definition storable (z : Z) : Prop := min_integer ≤ z ≤ max_integer.

#[global] Instance storable_dec z : Decision (storable z).
Proof. unfold storable. apply _. Defined.

(** [get_or_404(id)] for an id that is not in the table: the 404, unless
    the id cannot be bound to the query.  A table holds no key above
    [max_integer], so the lookup of a key it holds never fails this way;
    the URL converter [<int:id>] hands over no negative id. *)
Definition missing (id : Z) : response :=
  if decide (id ≤ max_integer) then NotFound else ServerError OverflowError.

(** [load_user]: the session resolves to a user only if the row exists. *)
Definition current_user (db : DB) (ctx : context) : option Z :=
  match session_user ctx with
  | Some uid => match user_table db !! uid with Some _ => Some uid | None => None end
  | None => None
  end.

(** [LoginManager.unauthorized] with [login_manager.login_view = 'login']. *)
Definition unauthorized : response :=
  Redirect "login" (Some (message, "Please log in to access this page.")).

(** [@login_required] *)
Definition login_required (db : DB) (ctx : context)
    (view : Z → DB * response) : DB * response :=
  match current_user db ctx with
  | Some uid => view uid
  | None => (db, unauthorized)
  end.

Definition home (db : DB) (ctx : context) : DB * response :=
  match current_user db ctx with
  | Some _ => (db, Redirect "dashboard" None)
  | None => (db, Redirect "login" None)
  end.

(** ** Book management *)

(** The store is SQLite ([SQLALCHEMY_DATABASE_URI]); [LIKE] there folds the
    case of ASCII letters. *)
Definition to_lower (c : ascii) : ascii :=
  let n := N_of_ascii c in
  if ((65 <=? n) && (n <=? 90))%N then ascii_of_N (n + 32) else c.

(** Text reaches the store as the UTF-8 encoding of a Python string, and a
    [string] here is that sequence of bytes.  Bytes 0x80 to 0xBF continue
    a character; a byte from 0xC0 on starts a character of several
    bytes. *)
Definition is_continuation (c : ascii) : bool :=
  let n := N_of_ascii c in ((128 <=? n) && (n <=? 191))%N.

Definition is_lead (c : ascii) : bool := (192 <=? N_of_ascii c)%N.

Fixpoint drop_continuation (t : string) : string :=
  match t with
  | EmptyString => EmptyString
  | String c t' => if is_continuation c then drop_continuation t' else t
  end.

(** What follows the first character of a text that starts with byte [d]. *)
Definition after_character (d : ascii) (t' : string) : string :=
  if is_lead d then drop_continuation t' else t'.

(** [m] accepts the text, or what is left of it after some of its first
    characters; [inside] says that the bytes passed so far end inside a
    character. *)
Fixpoint skip_characters (m : string → bool) (t : string) (inside : bool) : bool :=
  match t with
  | EmptyString => m EmptyString
  | String b t' =>
      if inside && is_continuation b then skip_characters m t' true
      else m t || skip_characters m t' (is_lead b)
  end.

(** [text LIKE pattern]: [%] stands for any run of characters, [_] for any
    one character, every other byte for itself up to ASCII case. *)
Fixpoint like (pattern text : string) : bool :=
  match pattern with
  | EmptyString => match text with EmptyString => true | String _ _ => false end
  | String c pattern' =>
      if Ascii.eqb c "%" then skip_characters (like pattern') text false
      else
        match text with
        | EmptyString => false
        | String d text' =>
            if Ascii.eqb c "_" then like pattern' (after_character d text')
            else Ascii.eqb (to_lower c) (to_lower d) && like pattern' text'
        end
  end.

(** [LIKE] reads its pattern and its text up to the first NUL byte. *)
Fixpoint c_string (s : string) : string :=
  match s with
  | EmptyString => EmptyString
  | String c s' => if Ascii.eqb c "000" then EmptyString else String c (c_string s')
  end.

(** [column.contains(q)] is rendered as [column LIKE '%' || q || '%']. *)
Definition contains (column q : string) : bool :=
  like (c_string ("%" +:+ q +:+ "%")) (c_string column).

(** A pattern of more bytes than this is refused as soon as [LIKE] is
    evaluated on a row: "LIKE or GLOB pattern too complex". *)
Definition like_pattern_limit : Z := 50000.

Definition pattern_too_long (q : string) : Prop :=
  like_pattern_limit < Z.of_nat (String.length q) + 2.

Definition books_matching (q : string) (bs : gmap Z Book) : gmap Z Book :=
  filter (λ kb, contains (title kb.2) q || contains (author kb.2) q = true) bs.

(** With no row in the table [LIKE] is not evaluated, and the long pattern
    goes unnoticed. *)
Definition books (db : DB) (ctx : context) (q : string) : DB * response :=
  login_required db ctx (λ _,
    if decide (q = "") then (db, Render (BooksPage (book_table db) q))
    else if decide (pattern_too_long q ∧ book_table db ≠ ∅) then
      (db, ServerError OperationalError)
    else (db, Render (BooksPage (books_matching q (book_table db)) q))).

(** The [quantity] form field: absent or empty, text that [int] parses, or
    text on which [int] raises [ValueError]. *)
Inductive quantity_field := QBlank | QInt (z : Z) | QMalformed.

(** [int(request.form.get('quantity') or 1)] *)
Definition parse_quantity (f : quantity_field) : option Z :=
  match f with
  | QBlank => Some 1
  | QInt z => Some z
  | QMalformed => None
  end.

Record book_form := mkBookForm {
  form_title : string;
  form_author : string;
  form_isbn : option string;
  form_quantity : quantity_field
}.

(** [Book.query.filter_by(isbn=isbn).first()] is not [None]. *)
Definition isbn_in_use (bs : gmap Z Book) (i : string) : Prop :=
  map_Exists (λ _ b, isbn b = Some i) bs.

(** [unique=True] on [Book.isbn]: writing [i] into row [self] is refused at
    commit when another row already holds the same non-NULL value. *)
Definition isbn_clash (bs : gmap Z Book) (self : Z) (i : option string) : Prop :=
  match i with
  | Some s => map_Exists (λ k b, k ≠ self ∧ isbn b = Some s) bs
  | None => False
  end.

#[global] Instance isbn_clash_dec bs self i : Decision (isbn_clash bs self i).
Proof. destruct i; simpl; apply _. Defined.

Definition with_books (bs : gmap Z Book) (db : DB) : DB :=
  mkDB (user_table db) bs (borrow_table db).

(** [int] runs before the ISBN test; the duplicate test is skipped for an
    absent or empty ISBN.  At the commit the quantity is bound to the
    INSERT before the statement runs, so a quantity that is not [storable]
    ends in [OverflowError] and nothing is stored. *)
Definition add_book (db : DB) (ctx : context) (form : book_form) : DB * response :=
  login_required db ctx (λ _,
    match method ctx with
    | POST =>
        match parse_quantity (form_quantity form) with
        | None => (db, ServerError ValueError)
        | Some q =>
            let taken :=
              match form_isbn form with
              | Some i =>
                  bool_decide (i ≠ "")
                  && bool_decide (isbn_in_use (book_table db) i)
              | None => false
              end in
            if taken then
              (db, Redirect "add_book"
                     (Some (danger, "A book with that ISBN already exists.")))
            else
              let book := mkBook (form_title form) (form_author form)
                                 (form_isbn form) q (bool_decide (q > 0)) in
              let id := next_id (book_table db) in
              if decide (¬ storable q) then
                (db, ServerError OverflowError)
              else if decide (isbn_clash (book_table db) id (isbn book)) then
                (db, ServerError IntegrityError)
              else
                (with_books (<[id := book]> (book_table db)) db,
                 Redirect "books" (Some (success, "Book added successfully.")))
        end
    | GET => (db, Render AddBookPage)
    end).

(** No duplicate test here: an ISBN another book holds is caught by the
    unique index only.  A quantity that is not [storable] cannot be bound
    to the UPDATE: [OverflowError], nothing written. *)
Definition edit_book (db : DB) (ctx : context) (book_id : Z) (form : book_form)
    : DB * response :=
  login_required db ctx (λ _,
    match book_table db !! book_id with
    | None => (db, missing book_id)
    | Some book =>
        match method ctx with
        | POST =>
            match parse_quantity (form_quantity form) with
            | None => (db, ServerError ValueError)
            | Some q =>
                let book' := mkBook (form_title form) (form_author form)
                                    (form_isbn form) q (bool_decide (q > 0)) in
                if decide (¬ storable q) then
                  (db, ServerError OverflowError)
                else if decide (isbn_clash (book_table db) book_id (isbn book')) then
                  (db, ServerError IntegrityError)
                else
                  (with_books (<[book_id := book']> (book_table db)) db,
                   Redirect "books" (Some (success, "Book updated successfully.")))
            end
        | GET => (db, Render (EditBookPage book))
        end
    end).

(** The book has Borrow rows, open or returned. *)
Definition has_borrows (rows : gmap Z Borrow) (k : Z) : Prop :=
  map_Exists (λ _ r, book_id r = k) rows.

(** [db.session.delete(book)] and [commit].  The relationship [Borrow.book]
    with [backref='borrows'] has no delete cascade, so the flush of the
    delete first detaches the Borrow rows of the book by writing NULL into
    their [book_id]; that column is [nullable=False], and the commit ends in
    [IntegrityError] whenever the book has Borrow rows.  Otherwise the row
    is removed. *)
Definition delete_book (db : DB) (ctx : context) (book_id : Z) : DB * response :=
  login_required db ctx (λ _,
    match book_table db !! book_id with
    | None => (db, missing book_id)
    | Some _ =>
        if decide (has_borrows (borrow_table db) book_id) then
          (db, ServerError IntegrityError)
        else
          (with_books (delete book_id (book_table db)) db,
           Redirect "books" (Some (info, "Book deleted.")))
    end).

(** ** Borrow / return *)

Definition dquote : string := String "034"%char EmptyString.

(** The flag is written only when the new quantity is 0. *)
Definition borrow (db : DB) (ctx : context) (book_id : Z) : DB * response :=
  login_required db ctx (λ uid,
    match book_table db !! book_id with
    | None => (db, missing book_id)
    | Some book =>
        if bool_decide (quantity book ≤ 0) then
          (db, Redirect "books" (Some (danger, "Book not available.")))
        else
          let book1 := set_quantity (quantity book - 1) book in
          let book2 :=
            if bool_decide (quantity book1 = 0) then set_available false book1
            else book1 in
          let borrow_record := mkBorrow uid book_id (now ctx) None in
          (mkDB (user_table db)
                (<[book_id := book2]> (book_table db))
                (<[next_id (borrow_table db) := borrow_record]> (borrow_table db)),
           Redirect "books"
             (Some (success,
                    "You borrowed " +:+ dquote +:+ title book +:+ dquote +:+ ".")))
    end).

(** [if borrow.returned_at:] tests for NULL, a [datetime] being true in a
    condition.  [Book.query.get] answers [None] for a missing row, and
    [book.quantity += 1] on [None] raises before anything is committed.
    A new quantity that is not [storable] cannot be bound at the commit:
    [OverflowError], and neither the stamp nor the quantity is written. *)
Definition return_book (db : DB) (ctx : context) (borrow_id : Z) : DB * response :=
  login_required db ctx (λ _,
    match borrow_table db !! borrow_id with
    | None => (db, missing borrow_id)
    | Some borrow =>
        match returned_at borrow with
        | Some _ =>
            (db, Redirect "dashboard" (Some (info, "This book is already returned.")))
        | None =>
            let borrow' := set_returned_at (Some (now ctx)) borrow in
            match book_table db !! book_id borrow with
            | None => (db, ServerError AttributeError)
            | Some book =>
                let book' := set_available true
                               (set_quantity (quantity book + 1) book) in
                if decide (¬ storable (quantity book')) then
                  (db, ServerError OverflowError)
                else
                  (mkDB (user_table db)
                        (<[book_id borrow := book']> (book_table db))
                        (<[borrow_id := borrow']> (borrow_table db)),
                   Redirect "dashboard"
                     (Some (success,
                            "Book " +:+ dquote +:+ title book +:+ dquote
                            +:+ " returned successfully.")))
            end
        end
    end).

Definition dashboard (db : DB) (ctx : context) : DB * response :=
  login_required db ctx (λ _,
    (db, Render (DashboardPage
                   (size (book_table db)) (size (user_table db))
                   (size (filter (λ kr, returned_at kr.2 = None) (borrow_table db)))))).

(** ** Registration and login *)

Record register_form := mkRegisterForm {
  form_fullname : string;
  form_username : string;
  form_email : string;
  form_password : string;
  form_confirm_password : string
}.

(** [User.query.filter((User.username == username) | (User.email == email))
    .first()] is not [None]. *)
Definition user_exists (us : gmap Z User) (name mail : string) : Prop :=
  map_Exists (λ _ u, username u = name ∨ email u = mail) us.

(** [User.query.filter_by(username=username).first()] *)
Definition user_by_username (us : gmap Z User) (name : string) : option (Z * User) :=
  head (map_to_list (filter (λ ku, username ku.2 = name) us)).

Section Credentials.

(** [werkzeug.security]: the hash of a password under the random salt
    drawn for it, and the check of a password against a stored hash. *)
Variable generate_password_hash : string → string → string.
Variable check_password_hash : string → string → bool.

(** The [unique=True] indexes on [username] and [email] refuse exactly the
    rows the explicit test has already turned away, so the commit of a new
    user goes through. *)
Definition register (db : DB) (ctx : context) (form : register_form)
    (salt : string) : DB * response :=
  match current_user db ctx with
  | Some _ => (db, Redirect "dashboard" None)
  | None =>
      match method ctx with
      | POST =>
          if bool_decide (form_password form ≠ form_confirm_password form) then
            (db, Redirect "register" (Some (danger, "Passwords do not match.")))
          else if bool_decide (user_exists (user_table db)
                                 (form_username form) (form_email form)) then
            (db, Redirect "register"
                   (Some (danger, "Username or email already exists.")))
          else
            let user := mkUser (form_fullname form) (form_username form)
                               (form_email form)
                               (generate_password_hash salt (form_password form))
                               (now ctx) in
            (mkDB (<[next_id (user_table db) := user]> (user_table db))
                  (book_table db) (borrow_table db),
             Redirect "login"
               (Some (success, "Registration successful. Please login.")))
      | GET => (db, Render RegisterPage)
      end
  end.

(** The third component is the user [login_user] binds to the session,
    if any; the store is only read. *)
Definition login (db : DB) (ctx : context) (name password : string)
    : DB * response * option Z :=
  match current_user db ctx with
  | Some uid => (db, Redirect "dashboard" None, Some uid)
  | None =>
      match method ctx with
      | POST =>
          match user_by_username (user_table db) name with
          | Some (uid, user) =>
              if check_password_hash (password_hash user) password then
                (db, Redirect "dashboard"
                       (Some (success, "Logged in successfully.")), Some uid)
              else
                (db, Redirect "login"
                       (Some (danger, "Invalid username or password.")), None)
          | None =>
              (db, Redirect "login"
                     (Some (danger, "Invalid username or password.")), None)
          end
      | GET => (db, Render LoginPage, None)
      end
  end.

(** ** The application as a transition system *)

(** The views that can write to the store. *)
Inductive request :=
| Register (form : register_form) (salt : string)
| AddBook (form : book_form)
| EditBook (book_id : Z) (form : book_form)
| DeleteBook (book_id : Z)
| BorrowBook (book_id : Z)
| ReturnBook (borrow_id : Z).

Definition handle (db : DB) (cr : context * request) : DB * response :=
  match cr.2 with
  | Register form salt => register db cr.1 form salt
  | AddBook form => add_book db cr.1 form
  | EditBook book_id form => edit_book db cr.1 book_id form
  | DeleteBook book_id => delete_book db cr.1 book_id
  | BorrowBook book_id => borrow db cr.1 book_id
  | ReturnBook borrow_id => return_book db cr.1 borrow_id
  end.

Definition run (trace : list (context * request)) (db : DB) : DB :=
  fold_left (λ d cr, (handle d cr).1) trace db.

(** Stores the application can be in, starting from empty tables. *)
Inductive reachable : DB → Prop :=
| reachable_init : reachable empty_db
| reachable_step db cr : reachable db → reachable (handle db cr).1.

End Credentials.

(** [@login_required] followed by [logout_user()]. *)
Definition logout (db : DB) (ctx : context) : DB * response * option Z :=
  match current_user db ctx with
  | Some _ => (db, Redirect "login" (Some (info, "Logged out successfully.")), None)
  | None => (db, unauthorized, None)
  end.

(** ** Properties of rows and requests *)

(** The quantity a request writes into a Book row, if it writes one. *)
Definition submitted_quantity (r : request) : option Z :=
  match r with
  | AddBook form | EditBook _ form => parse_quantity (form_quantity form)
  | _ => None
  end.

(** The quantity an add or edit request submits, if any, is not negative. *)
Definition nonneg_quantity (cr : context * request) : bool :=
  match submitted_quantity cr.2 with
  | Some q => bool_decide (0 ≤ q)
  | None => true
  end.

(** A book with copies left is flagged available. *)
Definition flag_sound (b : Book) : Prop := 0 < quantity b → available b = true.

(** Every Borrow row points at a row of the Book table. *)
Definition loans_resolve (db : DB) : Prop :=
  map_Forall (λ _ r, is_Some (book_table db !! book_id r)) (borrow_table db).

(** The Book invariant of the data model. *)
Definition consistent (b : Book) : Prop :=
  0 ≤ quantity b ∧ available b = bool_decide (quantity b > 0).

(** ** Substring search *)






(** ** Scenarios *)

(** Stand-ins for the two [werkzeug] functions, used to run the model on
    examples only: the salt, a separator, and the password as the digest. *)
Definition demo_hash (salt password : string) : string :=
  salt +:+ "$" +:+ password.

Fixpoint after_separator (h : string) : string :=
  match h with
  | EmptyString => EmptyString
  | String c h' => if Ascii.eqb c "$" then h' else after_separator h'
  end.

Definition demo_check (hash password : string) : bool :=
  String.eqb (after_separator hash) password.

Definition visitor (t : Z) : context := mkContext POST None t.
Definition member (uid t : Z) : context := mkContext POST (Some uid) t.

Definition alice_form : register_form :=
  mkRegisterForm "Alice" "alice" "alice@example.org" "secret" "secret".
Definition bob_form : register_form :=
  mkRegisterForm "Bob" "bob" "bob@example.org" "hunter2" "hunter2".
Definition alice : User :=
  mkUser "Alice" "alice" "alice@example.org" (demo_hash "salt" "secret") 0.

Definition dune_form (q : quantity_field) : book_form :=
  mkBookForm "Dune" "Frank Herbert" (Some "9780441013593") q.
Definition dune (q : Z) (a : bool) : Book :=
  mkBook "Dune" "Frank Herbert" (Some "9780441013593") q a.
Definition emma_form : book_form :=
  mkBookForm "Emma" "Jane Austen" (Some "9780141439587") (QInt 1).

(** Alice registers, then adds Dune with the given number of copies. *)
Definition opening (copies : Z) : list (context * request) :=
  [(visitor 0, Register alice_form "salt");
   (member 1 10, AddBook (dune_form (QInt copies)))].

Definition lending : list (context * request) :=
  opening 1 ++ [(member 1 20, BorrowBook 1)].

Definition members_only : DB := mkDB {[1 := alice]} ∅ ∅.
Definition stocked (copies : Z) : DB := run demo_hash (opening copies) empty_db.
Definition on_loan : DB := run demo_hash lending empty_db.
Definition returning : list (context * request) :=
  lending ++ [(member 1 40, ReturnBook 1)].
Definition given_back : DB := run demo_hash returning empty_db.

(** Dune is on loan and its quantity is then edited to the largest integer
    a column of SQLite holds. *)
Definition brimming : list (context * request) :=
  lending ++ [(member 1 30, EditBook 1 (dune_form (QInt max_integer)))].
Definition brimful : DB := run demo_hash brimming empty_db.


Definition bob : User :=
  mkUser "Bob" "bob" "bob@example.org" (demo_hash "pepper" "hunter2") 1.
Definition alice_again_form : register_form :=
  mkRegisterForm "Alice B" "alice" "ab@example.org" "pw" "pw".
Definition rob_form : register_form :=
  mkRegisterForm "Robert" "rob" "bob@example.org" "pw" "pw".

(** Alice and Bob register; a registration under Alice's username and one
    under Bob's email follow. *)
Definition enrolment : list (context * request) :=
  [(visitor 0, Register alice_form "salt");
   (visitor 1, Register bob_form "pepper");
   (visitor 2, Register alice_again_form "dill");
   (visitor 3, Register rob_form "mint")].
Definition two_members : DB := run demo_hash enrolment empty_db.

Definition emma : Book :=
  mkBook "Emma" "Jane Austen" (Some "9780141439587") 1 true.

(** Dune and Emma are added; a second add of Dune and an edit of Emma to
    the ISBN of Dune follow. *)
Definition shelving : list (context * request) :=
  opening 1 ++ [(member 1 11, AddBook emma_form);
                (member 1 12, AddBook (dune_form (QInt 3)));
                (member 1 13, EditBook 2 (dune_form (QInt 1)))].
Definition shelved : DB := run demo_hash shelving empty_db.

(** Dune and Emma on the shelf, one copy each. *)
Definition two_titles : DB :=
  run demo_hash (opening 1 ++ [(member 1 11, AddBook emma_form)]) empty_db.

(** A book submitted with an empty ISBN field. *)
Definition pamphlet_form : book_form :=
  mkBookForm "Pamphlet" "Anonymous" (Some "") (QInt 1).

(** An open loan whose book row is missing from the Book table, as after a
    removal of the row behind the application's back. *)
Definition orphaned : DB :=
  mkDB {[1 := alice]} ∅ {[1 := mkBorrow 1 1 20 None]}.

(** ** Properties of stores *)

(** No two User rows share a username, and no two share an email. *)
Definition users_unique (us : gmap Z User) : Prop :=
  ∀ i j u v, us !! i = Some u → us !! j = Some v →
    username u = username v ∨ email u = email v → i = j.

(** No two Book rows share an ISBN that is not NULL. *)
Definition isbn_unique (bs : gmap Z Book) : Prop :=
  ∀ i j b c s, bs !! i = Some b → bs !! j = Some c →
    isbn b = Some s → isbn c = Some s → i = j.

(** [r'] is the row [r] at a later time: the same loan, returned if [r]
    was, and then at the same moment. *)
Definition loan_extends (r r' : Borrow) : Prop :=
  user_id r' = user_id r ∧ book_id r' = book_id r
  ∧ borrowed_at r' = borrowed_at r
  ∧ (∀ t, returned_at r = Some t → returned_at r' = Some t).

(** Number of open Borrow rows of book [k]. *)
Definition open_loans (rows : gmap Z Borrow) (k : Z) : nat :=
  size (filter (λ ir, book_id ir.2 = k ∧ returned_at ir.2 = None) rows).

(** The request is an edit or a delete of book [k]. *)
Definition rewrites_book (k : Z) (cr : context * request) : bool :=
  match cr.2 with
  | EditBook k' _ | DeleteBook k' => bool_decide (k' = k)
  | _ => false
  end.

(** The third counter of the dashboard. *)
Definition on_loan_count (db : DB) : nat :=
  size (filter (λ kr, returned_at kr.2 = None) (borrow_table db)).

(** * Verification *)

(** ** Primary keys *)

Lemma max_id_upper {A} (m : gmap Z A) k :
  is_Some (m !! k) → k ≤ max_id m.
Proof.
  unfold max_id. revert k.
  apply (map_fold_weak_ind (λ r m, ∀ k, is_Some (m !! k) → k ≤ r)).
  - intros k [x Hx]. by rewrite lookup_empty in Hx.
  - intros i x m' r Hi IH k [y Hy].
    destruct (decide (i = k)) as [->|Hne].
    + lia.
    + rewrite lookup_insert_ne in Hy by done.
      specialize (IH k (ex_intro _ y Hy)). lia.
Qed.

Lemma next_id_fresh {A} (m : gmap Z A) : m !! next_id m = None.
Proof.
  destruct (m !! next_id m) as [x|] eqn:E; [|done].
  pose proof (max_id_upper m (next_id m) (ex_intro _ x E)).
  unfold next_id in *. lia.
Qed.

Lemma next_id_above {A} (m : gmap Z A) k : is_Some (m !! k) → k < next_id m.
Proof. intros H. apply max_id_upper in H. unfold next_id. lia. Qed.

(** ** Sessions *)

Lemma login_required_user db ctx uid view :
  current_user db ctx = Some uid → login_required db ctx view = view uid.
Proof. unfold login_required. by intros ->. Qed.

Lemma login_required_anonymous db ctx view :
  current_user db ctx = None →
  login_required db ctx view = (db, unauthorized).
Proof. unfold login_required. by intros ->. Qed.

(** ** Borrowing *)

Lemma borrow_rejected db ctx uid k b :
  current_user db ctx = Some uid →
  book_table db !! k = Some b →
  quantity b ≤ 0 →
  borrow db ctx k = (db, Redirect "books" (Some (danger, "Book not available."))).
Proof.
  intros Hu Hb Hq. unfold borrow.
  rewrite (login_required_user _ _ _ _ Hu), Hb.
  by rewrite bool_decide_eq_true_2.
Qed.

Lemma borrow_accepted db ctx uid k b :
  current_user db ctx = Some uid →
  book_table db !! k = Some b →
  0 < quantity b →
  borrow db ctx k =
    (mkDB (user_table db)
          (<[k := mkBook (title b) (author b) (isbn b) (quantity b - 1)
                         (if bool_decide (quantity b - 1 = 0) then false
                          else available b)]> (book_table db))
          (<[next_id (borrow_table db) := mkBorrow uid k (now ctx) None]>
             (borrow_table db)),
     Redirect "books"
       (Some (success, "You borrowed " +:+ dquote +:+ title b +:+ dquote +:+ "."))).
Proof.
  intros Hu Hb Hq. unfold borrow.
  rewrite (login_required_user _ _ _ _ Hu), Hb.
  rewrite bool_decide_eq_false_2 by lia. simpl.
  by destruct (bool_decide (quantity b - 1 = 0)).
Qed.

(** C3: a borrow of a book whose quantity is not above 0 is answered with
    the "Book not available." rejection and leaves the whole store as it
    was: no Borrow row is added and the book keeps its quantity and flag. *)
Theorem borrow_unavailable db ctx uid k b :
  current_user db ctx = Some uid →
  book_table db !! k = Some b →
  quantity b ≤ 0 →
  (borrow db ctx k).2 = Redirect "books" (Some (danger, "Book not available."))
  ∧ (borrow db ctx k).1 = db
  ∧ borrow_table (borrow db ctx k).1 = borrow_table db
  ∧ book_table (borrow db ctx k).1 !! k = Some b.
Proof.
  intros Hu Hb Hq. rewrite (borrow_rejected _ _ _ _ _ Hu Hb Hq). simpl. eauto.
Qed.

(** ** How one request changes the Book table *)

Section Invariants.

Variable generate_password_hash : string → string → string.

#[local] Abbreviation handle := (handle generate_password_hash).
#[local] Abbreviation run := (run generate_password_hash).
#[local] Abbreviation reachable := (reachable generate_password_hash).

(** A property of Book rows survives a request as soon as it holds of the
    rows [add_book] and [edit_book] write and is kept by the updates of
    [borrow] and [return_book]. *)
Lemma handle_books_preserve (P : Book → Prop) db cr :
  (∀ q t a i, submitted_quantity cr.2 = Some q → storable q →
     P (mkBook t a i q (bool_decide (q > 0)))) →
  (∀ b, P b → 0 < quantity b →
     P (mkBook (title b) (author b) (isbn b) (quantity b - 1)
          (if bool_decide (quantity b - 1 = 0) then false else available b))) →
  (∀ b, P b → storable (quantity b + 1) →
     P (mkBook (title b) (author b) (isbn b) (quantity b + 1) true)) →
  map_Forall (λ _, P) (book_table db) →
  map_Forall (λ _, P) (book_table (handle db cr).1).
Proof.
  intros Hwrite Hborrow Hreturn Hall.
  destruct cr as [ctx req]. unfold handle. simpl in *.
  destruct req as [form salt|form|k form|k|k|i]; simpl.
  - unfold register. repeat (case_match; simpl; try done).
  - unfold add_book, login_required.
    repeat (case_match; simpl; try done);
      (apply map_Forall_insert_2; [|done]); (apply Hwrite; [done|]);
      by apply dec_stable.
  - unfold edit_book, login_required.
    repeat (case_match; simpl; try done);
      (apply map_Forall_insert_2; [|done]); (apply Hwrite; [done|]);
      by apply dec_stable.
  - unfold delete_book, login_required.
    repeat (case_match; simpl; try done); by apply map_Forall_delete.
  - unfold borrow, login_required.
    destruct (current_user db ctx); simpl; [|done].
    destruct (book_table db !! k) as [b|] eqn:Hb; simpl; [|done].
    case_bool_decide as Hq; simpl; [done|].
    apply map_Forall_insert_2; [|done].
    specialize (Hborrow b (Hall k b Hb) ltac:(lia)).
    by destruct (bool_decide (quantity b - 1 = 0)).
  - unfold return_book, login_required.
    destruct (current_user db ctx); simpl; [|done].
    destruct (borrow_table db !! i) as [r|]; simpl; [|done].
    destruct (returned_at r); simpl; [done|].
    destruct (book_table db !! book_id r) as [b|] eqn:Hb; simpl; [|done].
    destruct (decide (¬ storable (quantity b + 1))) as [|Hfits]; simpl; [done|].
    apply map_Forall_insert_2; [|done].
    apply (Hreturn b); [by apply (Hall (book_id r))|by apply dec_stable].
Qed.

Lemma reachable_flag_sound db :
  reachable db → map_Forall (λ _, flag_sound) (book_table db).
Proof.
  induction 1 as [|db cr _ IH].
  - apply map_Forall_empty.
  - apply handle_books_preserve; [| | |done]; unfold flag_sound; simpl.
    + intros q _ _ _ _ _ Hq. apply bool_decide_eq_true_2. lia.
    + intros b Hb Hq Hq'. rewrite bool_decide_eq_false_2 by lia. auto.
    + done.
Qed.

(** Every quantity in the Book table fits the INTEGER column. *)
Lemma reachable_storable db :
  reachable db → map_Forall (λ _ b, storable (quantity b)) (book_table db).
Proof.
  induction 1 as [|db cr _ IH].
  - apply map_Forall_empty.
  - apply (handle_books_preserve (λ b, storable (quantity b))); [| | |done];
      simpl; [done| |done].
    unfold storable, min_integer, max_integer. intros b Hb Hq. lia.
Qed.

Lemma run_reachable trace db : reachable db → reachable (run trace db).
Proof.
  revert db. induction trace as [|cr trace IH]; intros db Hdb; [done|].
  simpl. apply IH. by constructor.
Qed.

(** The views keep every Borrow row attached to a book: a book is only
    deleted while no Borrow row points at it. *)
Lemma handle_loans_resolve db cr :
  loans_resolve db → loans_resolve (handle db cr).1.
Proof.
  unfold loans_resolve. intros Hall.
  destruct cr as [ctx req]. unfold handle. simpl.
  destruct req as [form salt|form|k form|k|k|i]; simpl.
  - unfold register. repeat (case_match; simpl; try done).
  - unfold add_book, login_required.
    repeat (case_match; simpl; try done);
      (intros j r Hr; apply lookup_insert_is_Some'; right; by eapply Hall).
  - unfold edit_book, login_required.
    repeat (case_match; simpl; try done);
      (intros j r Hr; apply lookup_insert_is_Some'; right; by eapply Hall).
  - unfold delete_book, login_required.
    destruct (current_user db ctx); simpl; [|done].
    destruct (book_table db !! k); simpl; [|done].
    destruct (decide (has_borrows (borrow_table db) k)) as [|Hfree]; simpl; [done|].
    intros j r Hr. rewrite lookup_delete_ne; [by eapply Hall|].
    intros Hk. apply Hfree. exists j, r. by split.
  - unfold borrow, login_required.
    destruct (current_user db ctx); simpl; [|done].
    destruct (book_table db !! k) as [b|] eqn:Hb; simpl; [|done].
    case_bool_decide; simpl; [done|].
    apply map_Forall_insert_2; simpl.
    + rewrite lookup_insert_eq. eauto.
    + intros j r Hr. apply lookup_insert_is_Some'. right. by eapply Hall.
  - unfold return_book, login_required.
    destruct (current_user db ctx); simpl; [|done].
    destruct (borrow_table db !! i) as [r|] eqn:Hi; simpl; [|done].
    destruct (returned_at r); simpl; [done|].
    destruct (book_table db !! book_id r) as [b|] eqn:Hb; simpl; [|done].
    destruct (decide (¬ storable (quantity b + 1))); simpl; [done|].
    apply map_Forall_insert_2; simpl.
    + rewrite lookup_insert_eq. eauto.
    + intros j r' Hr. apply lookup_insert_is_Some'. right. by eapply Hall.
Qed.

Lemma reachable_loans_resolve db : reachable db → loans_resolve db.
Proof.
  induction 1 as [|db cr _ IH].
  - apply map_Forall_empty.
  - by apply handle_loans_resolve.
Qed.

(** So, on the stores the views produce, the book of a loan is always
    found and [return_book] does not run into the missing row. *)
Lemma return_book_finds_book db ctx i :
  reachable db → (return_book db ctx i).2 ≠ ServerError AttributeError.
Proof.
  intros Hreach. pose proof (reachable_loans_resolve db Hreach) as Hall.
  unfold return_book, login_required.
  destruct (current_user db ctx); simpl; [|done].
  destruct (borrow_table db !! i) as [r|] eqn:Hi; simpl;
    [|unfold missing; by case_decide].
  destruct (returned_at r); simpl; [done|].
  destruct (Hall i r Hi) as [b Hb]. rewrite Hb. simpl.
  by destruct (decide (¬ storable (quantity b + 1))).
Qed.

(** C2: in a store the application can reach, a borrow of a book with
    quantity above 0 by a logged-in user succeeds; the book's quantity drops
    by exactly one, its flag becomes [quantity > 0] for the new quantity,
    and exactly one Borrow row is added, under a key unused before, for the
    caller and the book, borrowed now and not returned.  Nothing else
    changes. *)
Theorem borrow_success db ctx uid k b :
  reachable db →
  current_user db ctx = Some uid →
  book_table db !! k = Some b →
  0 < quantity b →
  borrow db ctx k =
    (mkDB (user_table db)
          (<[k := mkBook (title b) (author b) (isbn b) (quantity b - 1)
                         (bool_decide (quantity b - 1 > 0))]> (book_table db))
          (<[next_id (borrow_table db) := mkBorrow uid k (now ctx) None]>
             (borrow_table db)),
     Redirect "books"
       (Some (success, "You borrowed " +:+ dquote +:+ title b +:+ dquote +:+ ".")))
  ∧ borrow_table db !! next_id (borrow_table db) = None.
Proof.
  intros Hreach Hu Hb Hq. split; [|apply next_id_fresh].
  rewrite (borrow_accepted _ _ _ _ _ Hu Hb Hq).
  pose proof (reachable_flag_sound db Hreach k b Hb Hq) as Hflag.
  simpl in Hflag. rewrite Hflag.
  repeat f_equal.
  case_bool_decide; case_bool_decide; (done || lia).
Qed.

(** ** Returning *)

Lemma return_book_open db ctx uid i r b :
  current_user db ctx = Some uid →
  borrow_table db !! i = Some r →
  returned_at r = None →
  book_table db !! book_id r = Some b →
  storable (quantity b + 1) →
  return_book db ctx i =
    (mkDB (user_table db)
          (<[book_id r := mkBook (title b) (author b) (isbn b)
                                 (quantity b + 1) true]> (book_table db))
          (<[i := mkBorrow (user_id r) (book_id r) (borrowed_at r)
                           (Some (now ctx))]> (borrow_table db)),
     Redirect "dashboard"
       (Some (success,
              "Book " +:+ dquote +:+ title b +:+ dquote
              +:+ " returned successfully."))).
Proof.
  intros Hu Hr Hopen Hb Hfits. unfold return_book.
  rewrite (login_required_user _ _ _ _ Hu), Hr, Hopen, Hb. simpl.
  rewrite decide_False; [done|]. by intros H.
Qed.

Lemma return_book_overflow db ctx uid i r b :
  current_user db ctx = Some uid →
  borrow_table db !! i = Some r →
  returned_at r = None →
  book_table db !! book_id r = Some b →
  ¬ storable (quantity b + 1) →
  return_book db ctx i = (db, ServerError OverflowError).
Proof.
  intros Hu Hr Hopen Hb Hover. unfold return_book.
  rewrite (login_required_user _ _ _ _ Hu), Hr, Hopen, Hb. simpl.
  by rewrite decide_True.
Qed.

Lemma return_book_closed db ctx uid i r t :
  current_user db ctx = Some uid →
  borrow_table db !! i = Some r →
  returned_at r = Some t →
  return_book db ctx i =
    (db, Redirect "dashboard" (Some (info, "This book is already returned."))).
Proof.
  intros Hu Hr Ht. unfold return_book.
  by rewrite (login_required_user _ _ _ _ Hu), Hr, Ht.
Qed.

(** C5, as the code has it: returning an open Borrow row whose book exists
    and whose quantity plus one still fits the INTEGER column stamps the
    row with the current time, adds exactly one to the book's quantity and
    stores the literal [true] in its flag, whatever the quantity is.  When
    the new quantity does not fit, which is the case at 2^63 - 1, the
    commit raises [OverflowError]: the row stays open and the book is left
    as it was. *)
Theorem return_success db ctx uid i r b :
  current_user db ctx = Some uid →
  borrow_table db !! i = Some r →
  returned_at r = None →
  book_table db !! book_id r = Some b →
  (storable (quantity b + 1) →
   ∃ db', return_book db ctx i =
            (db', Redirect "dashboard"
                    (Some (success,
                           "Book " +:+ dquote +:+ title b +:+ dquote
                           +:+ " returned successfully.")))
   ∧ borrow_table db' =
       <[i := mkBorrow (user_id r) (book_id r) (borrowed_at r) (Some (now ctx))]>
         (borrow_table db)
   ∧ book_table db' =
       <[book_id r := mkBook (title b) (author b) (isbn b) (quantity b + 1) true]>
         (book_table db)
   ∧ user_table db' = user_table db)
  ∧ (¬ storable (quantity b + 1) →
     return_book db ctx i = (db, ServerError OverflowError)).
Proof.
  intros Hu Hr Hopen Hb. split.
  - intros Hfits.
    rewrite (return_book_open _ _ _ _ _ _ Hu Hr Hopen Hb Hfits). eauto.
  - intros Hover. by apply (return_book_overflow _ _ uid _ r b).
Qed.

(** C4: [return_book] on a row that already carries a returned timestamp
    answers "This book is already returned." and leaves the store as it
    was, row and book included.  So two calls in a row on an open loan
    never add two to the quantity: when the first goes through, the second
    changes nothing; when the first fails because the new quantity does
    not fit the INTEGER column, both leave the store as it was. *)
Theorem return_already_returned db ctx ctx' uid i r :
  current_user db ctx = Some uid →
  current_user db ctx' = Some uid →
  borrow_table db !! i = Some r →
  (∀ t, returned_at r = Some t →
     return_book db ctx i =
       (db, Redirect "dashboard" (Some (info, "This book is already returned."))))
  ∧ (∀ b, returned_at r = None → book_table db !! book_id r = Some b →
       let db1 := (return_book db ctx i).1 in
       (storable (quantity b + 1) →
          return_book db1 ctx' i =
            (db1, Redirect "dashboard"
                    (Some (info, "This book is already returned.")))
          ∧ book_table db1 !! book_id r
            = Some (mkBook (title b) (author b) (isbn b) (quantity b + 1) true))
       ∧ (¬ storable (quantity b + 1) →
          db1 = db
          ∧ return_book db1 ctx' i = (db, ServerError OverflowError))).
Proof.
  intros Hu Hu' Hr. split.
  - intros t Ht. by eapply return_book_closed.
  - intros b Hopen Hb. split.
    + intros Hfits.
      rewrite (return_book_open _ _ _ _ _ _ Hu Hr Hopen Hb Hfits). simpl. split.
      * eapply return_book_closed with (uid := uid) (t := now ctx).
        -- by rewrite <- Hu'.
        -- simpl. apply lookup_insert_eq.
        -- done.
      * apply lookup_insert_eq.
    + intros Hover.
      rewrite (return_book_overflow _ _ _ _ _ _ Hu Hr Hopen Hb Hover). simpl.
      split; [done|]. by apply (return_book_overflow _ _ uid _ r b).
Qed.

(** C10: nothing limits a user to one open loan per book: with at least two
    copies, two borrows in a row by the same user both go through and leave
    two open Borrow rows, under different keys unused before, for the same
    user and book. *)
Theorem borrow_twice_same_user db ctx1 ctx2 uid k b :
  current_user db ctx1 = Some uid →
  current_user db ctx2 = Some uid →
  book_table db !! k = Some b →
  2 ≤ quantity b →
  let first := borrow db ctx1 k in
  let second := borrow first.1 ctx2 k in
  let i := next_id (borrow_table db) in
  let j := next_id (borrow_table first.1) in
  first.2 = Redirect "books"
              (Some (success, "You borrowed " +:+ dquote +:+ title b +:+ dquote +:+ "."))
  ∧ second.2 = Redirect "books"
              (Some (success, "You borrowed " +:+ dquote +:+ title b +:+ dquote +:+ "."))
  ∧ i ≠ j
  ∧ borrow_table db !! i = None
  ∧ borrow_table db !! j = None
  ∧ borrow_table second.1 !! i = Some (mkBorrow uid k (now ctx1) None)
  ∧ borrow_table second.1 !! j = Some (mkBorrow uid k (now ctx2) None)
  ∧ (quantity <$> book_table second.1 !! k) = Some (quantity b - 2).
Proof.
  intros Hu1 Hu2 Hb Hq. simpl.
  rewrite (borrow_accepted _ _ _ _ _ Hu1 Hb) by lia. simpl.
  set (b1 := mkBook _ _ _ (quantity b - 1) _).
  set (i := next_id (borrow_table db)).
  set (rows1 := <[i := _]> (borrow_table db)).
  set (db1 := mkDB _ _ rows1).
  assert (Hb1 : book_table db1 !! k = Some b1) by apply lookup_insert_eq.
  assert (Hu2' : current_user db1 ctx2 = Some uid) by done.
  rewrite (borrow_accepted _ _ _ _ _ Hu2' Hb1) by (unfold b1; simpl; lia). simpl.
  assert (Hij : i < next_id rows1).
  { apply next_id_above. exists (mkBorrow uid k (now ctx1) None).
    apply lookup_insert_eq. }
  assert (Hfresh : rows1 !! next_id rows1 = None) by apply next_id_fresh.
  split_and!; try done.
  - lia.
  - apply next_id_fresh.
  - rewrite <- Hfresh. symmetry. apply lookup_insert_ne. lia.
  - rewrite lookup_insert_ne by lia. apply lookup_insert_eq.
  - apply lookup_insert_eq.
  - rewrite lookup_insert_eq. simpl. f_equal. lia.
Qed.

(** ** Quantity and flag along a run *)

Lemma handle_nonneg db cr :
  nonneg_quantity cr = true →
  map_Forall (λ _ b, 0 ≤ quantity b) (book_table db) →
  map_Forall (λ _ b, 0 ≤ quantity b) (book_table (handle db cr).1).
Proof.
  intros Hcr. apply (handle_books_preserve (λ b, 0 ≤ quantity b)); simpl.
  - intros q _ _ _ Hq _. unfold nonneg_quantity in Hcr. rewrite Hq in Hcr.
    by apply bool_decide_eq_true_1 in Hcr.
  - intros; lia.
  - intros; lia.
Qed.

Lemma handle_consistent db cr :
  nonneg_quantity cr = true →
  map_Forall (λ _, consistent) (book_table db) →
  map_Forall (λ _, consistent) (book_table (handle db cr).1).
Proof.
  intros Hcr. apply handle_books_preserve; unfold consistent; simpl.
  - intros q _ _ _ Hq _. unfold nonneg_quantity in Hcr. rewrite Hq in Hcr.
    by apply bool_decide_eq_true_1 in Hcr.
  - intros b [Hq Hflag] Hpos. split; [lia|].
    rewrite Hflag. repeat case_bool_decide; (done || lia).
  - intros b [Hq _] _. split; [lia|].
    symmetry. apply bool_decide_eq_true_2. lia.
Qed.

Lemma run_preserve (P : Book → Prop) trace db :
  (∀ d cr, cr ∈ trace → map_Forall (λ _, P) (book_table d) →
     map_Forall (λ _, P) (book_table (handle d cr).1)) →
  map_Forall (λ _, P) (book_table db) →
  map_Forall (λ _, P) (book_table (run trace db)).
Proof.
  revert db. induction trace as [|cr trace IH]; intros db Hstep Hdb; [done|].
  simpl. apply IH.
  - intros d cr' Hin. apply Hstep. by right.
  - apply Hstep; [by left|done].
Qed.

Lemma forallb_elem_of {A} (f : A → bool) (l : list A) x :
  forallb f l = true → x ∈ l → f x = true.
Proof.
  intros Hall Hin. rewrite forallb_forall in Hall.
  apply Hall. by apply list_elem_of_In.
Qed.

(** C1, as the code has it: when every quantity submitted to add and edit
    is non-negative, every book's flag equals [quantity > 0] after every
    request of a run, returns included.  With no condition on what is
    submitted, every book with quantity above 0 is flagged available, and
    a return that goes through stores the literal [true] whatever the
    quantity. *)
Theorem available_matches_quantity trace :
  (forallb nonneg_quantity trace = true →
   ∀ k b, book_table (run trace empty_db) !! k = Some b →
          available b = bool_decide (quantity b > 0))
  ∧ (∀ k b, book_table (run trace empty_db) !! k = Some b →
            0 < quantity b → available b = true)
  ∧ (∀ ctx uid i r b,
       let db := run trace empty_db in
       current_user db ctx = Some uid →
       borrow_table db !! i = Some r →
       returned_at r = None →
       book_table db !! book_id r = Some b →
       available <$> book_table (return_book db ctx i).1 !! book_id r = Some true).
Proof.
  split_and!.
  - intros Hnn k b Hb.
    assert (Hall : map_Forall (λ _, consistent) (book_table (run trace empty_db))).
    { apply run_preserve; [|apply map_Forall_empty].
      intros d cr Hin. apply handle_consistent. by eapply forallb_elem_of. }
    by destruct (Hall k b Hb).
  - intros k b Hb.
    apply (reachable_flag_sound (run trace empty_db)) with (i := k); [|done].
    apply run_reachable. constructor.
  - intros ctx uid i r b db Hu Hr Hopen Hb.
    assert (Hreach : reachable db) by (apply run_reachable; constructor).
    destruct (decide (storable (quantity b + 1))) as [Hfits|Hover].
    + rewrite (return_book_open _ _ _ _ _ _ Hu Hr Hopen Hb Hfits). simpl.
      by rewrite lookup_insert_eq.
    + rewrite (return_book_overflow _ _ _ _ _ _ Hu Hr Hopen Hb Hover). simpl.
      rewrite Hb. simpl. f_equal.
      apply (reachable_flag_sound db Hreach (book_id r) b Hb).
      pose proof (reachable_storable db Hreach (book_id r) b Hb) as Hq.
      unfold storable, min_integer, max_integer in *. simpl in Hq. lia.
Qed.

(** C6, as the code has it: add and edit store the integer they are given,
    so a quantity stays at 0 or above exactly as long as none of them is
    given a negative one; every request that submits no negative quantity
    keeps all quantities non-negative, and so does every run of such
    requests from the empty store. *)
Theorem quantity_nonnegative :
  (∀ db cr, nonneg_quantity cr = true →
     (∀ k b, book_table db !! k = Some b → 0 ≤ quantity b) →
     ∀ k b, book_table (handle db cr).1 !! k = Some b → 0 ≤ quantity b)
  ∧ (∀ trace, forallb nonneg_quantity trace = true →
       ∀ k b, book_table (run trace empty_db) !! k = Some b → 0 ≤ quantity b).
Proof.
  split.
  - intros db cr Hcr Hall. by apply handle_nonneg.
  - intros trace Hnn.
    apply (run_preserve (λ b, 0 ≤ quantity b)); [|apply map_Forall_empty].
    intros d cr Hin. apply handle_nonneg. by eapply forallb_elem_of.
Qed.

End Invariants.

(** ** Registration *)

Section Registration.

Variable generate_password_hash : string → string → string.

(** Assumed of [werkzeug]'s hash: the result, which carries the method and
    the salt in front of the digest, is never the password itself. *)
Hypothesis hash_differs : ∀ salt password,
  generate_password_hash salt password ≠ password.

Lemma register_mismatch db ctx form salt :
  current_user db ctx = None →
  method ctx = POST →
  form_password form ≠ form_confirm_password form →
  register generate_password_hash db ctx form salt =
    (db, Redirect "register" (Some (danger, "Passwords do not match."))).
Proof.
  intros Hu Hm Hne. unfold register. rewrite Hu, Hm.
  by rewrite bool_decide_eq_true_2.
Qed.

Lemma register_taken db ctx form salt :
  current_user db ctx = None →
  method ctx = POST →
  form_password form = form_confirm_password form →
  user_exists (user_table db) (form_username form) (form_email form) →
  register generate_password_hash db ctx form salt =
    (db, Redirect "register" (Some (danger, "Username or email already exists."))).
Proof.
  intros Hu Hm Heq Hex. unfold register. rewrite Hu, Hm.
  rewrite bool_decide_eq_false_2 by (by intros []).
  by rewrite bool_decide_eq_true_2.
Qed.

Lemma register_created db ctx form salt :
  current_user db ctx = None →
  method ctx = POST →
  form_password form = form_confirm_password form →
  ¬ user_exists (user_table db) (form_username form) (form_email form) →
  register generate_password_hash db ctx form salt =
    (mkDB (<[next_id (user_table db) :=
               mkUser (form_fullname form) (form_username form) (form_email form)
                      (generate_password_hash salt (form_password form))
                      (now ctx)]> (user_table db))
          (book_table db) (borrow_table db),
     Redirect "login" (Some (success, "Registration successful. Please login."))).
Proof.
  intros Hu Hm Heq Hex. unfold register. rewrite Hu, Hm.
  rewrite bool_decide_eq_false_2 by (by intros []).
  by rewrite bool_decide_eq_false_2.
Qed.

(** C7: for a form posted by a visitor who is not logged in, [register]
    rejects a password that differs from its confirmation before it looks
    at the users and without touching the store, rejects a username or
    email that an existing user has, again without touching the store, and
    otherwise adds exactly one User row, under a key unused before, whose
    stored password is the salted hash and not the password. *)
Theorem register_spec db ctx form salt :
  current_user db ctx = None →
  method ctx = POST →
  (form_password form ≠ form_confirm_password form →
     register generate_password_hash db ctx form salt =
       (db, Redirect "register" (Some (danger, "Passwords do not match."))))
  ∧ (form_password form = form_confirm_password form →
     user_exists (user_table db) (form_username form) (form_email form) →
     register generate_password_hash db ctx form salt =
       (db, Redirect "register"
              (Some (danger, "Username or email already exists."))))
  ∧ (form_password form = form_confirm_password form →
     ¬ user_exists (user_table db) (form_username form) (form_email form) →
     ∃ user,
       register generate_password_hash db ctx form salt =
         (mkDB (<[next_id (user_table db) := user]> (user_table db))
               (book_table db) (borrow_table db),
          Redirect "login"
            (Some (success, "Registration successful. Please login.")))
       ∧ user_table db !! next_id (user_table db) = None
       ∧ fullname user = form_fullname form
       ∧ username user = form_username form
       ∧ email user = form_email form
       ∧ password_hash user = generate_password_hash salt (form_password form)
       ∧ password_hash user ≠ form_password form).
Proof.
  intros Hu Hm. split_and!.
  - by apply register_mismatch.
  - by apply register_taken.
  - intros Heq Hex. eexists. split; [by apply register_created|].
    simpl. split_and!; try done. apply next_id_fresh.
Qed.

End Registration.

(** ** Listing books *)




















(** ** Errors at the boundary *)

Section Errors.

Variable generate_password_hash : string → string → string.
Variable check_password_hash : string → string → bool.

Lemma login_invalid db ctx name password :
  current_user db ctx = None →
  method ctx = POST →
  (∀ uid user, user_by_username (user_table db) name = Some (uid, user) →
     check_password_hash (password_hash user) password = false) →
  login check_password_hash db ctx name password =
    (db, Redirect "login" (Some (danger, "Invalid username or password.")), None).
Proof.
  intros Hu Hm Hbad. unfold login. rewrite Hu, Hm.
  destruct (user_by_username (user_table db) name) as [[uid user]|] eqn:E; [|done].
  by rewrite (Hbad uid user).
Qed.

Lemma add_book_conflict db ctx uid form q i :
  current_user db ctx = Some uid →
  method ctx = POST →
  parse_quantity (form_quantity form) = Some q →
  form_isbn form = Some i →
  i ≠ "" →
  isbn_in_use (book_table db) i →
  add_book db ctx form =
    (db, Redirect "add_book"
           (Some (danger, "A book with that ISBN already exists."))).
Proof.
  intros Hu Hm Hq Hi Hne Huse. unfold add_book.
  rewrite (login_required_user _ _ _ _ Hu), Hm, Hq, Hi.
  by rewrite (bool_decide_eq_true_2 _ Hne), (bool_decide_eq_true_2 _ Huse).
Qed.

Lemma missing_in_range id : id ≤ max_integer → missing id = NotFound.
Proof. intros H. unfold missing. by rewrite decide_True. Qed.

Lemma missing_out_of_range id :
  max_integer < id → missing id = ServerError OverflowError.
Proof. intros H. unfold missing. rewrite decide_False; [done|lia]. Qed.

Lemma unknown_book db ctx uid k form :
  current_user db ctx = Some uid →
  book_table db !! k = None →
  edit_book db ctx k form = (db, missing k)
  ∧ delete_book db ctx k = (db, missing k)
  ∧ borrow db ctx k = (db, missing k).
Proof.
  intros Hu Hk. unfold edit_book, delete_book, borrow.
  by rewrite !(login_required_user _ _ _ _ Hu), Hk.
Qed.

Lemma unknown_borrow db ctx uid i :
  current_user db ctx = Some uid →
  borrow_table db !! i = None →
  return_book db ctx i = (db, missing i).
Proof.
  intros Hu Hi. unfold return_book.
  by rewrite (login_required_user _ _ _ _ Hu), Hi.
Qed.

(** The case [return_book] does not test for: the book is fetched with
    [get], not [get_or_404], and [quantity] is read from the result. *)
Lemma return_book_orphan db ctx uid i r :
  current_user db ctx = Some uid →
  borrow_table db !! i = Some r →
  returned_at r = None →
  book_table db !! book_id r = None →
  return_book db ctx i = (db, ServerError AttributeError).
Proof.
  intros Hu Hr Hopen Hb. unfold return_book.
  by rewrite (login_required_user _ _ _ _ Hu), Hr, Hopen, Hb.
Qed.

(** C9, as the code has it: a password that differs from its confirmation,
    a username or email already in use, wrong credentials, a missing
    session, a book without copies on borrow, and on add a non-empty ISBN
    already in use, sent with a quantity field that is empty, absent or
    text that [int] accepts, are each answered with a redirect and a
    flashed message, the store left as it was.  An id that is not in its table is
    answered with the 404 of [get_or_404], which is not a redirect, when it
    is at most 2^63 - 1, and with an [OverflowError] when it is larger; the
    store is left as it was in both cases. *)
Theorem errors_at_the_boundary db ctx :
  (current_user db ctx = None → method ctx = POST → ∀ form salt,
     (form_password form ≠ form_confirm_password form →
        register generate_password_hash db ctx form salt =
          (db, Redirect "register" (Some (danger, "Passwords do not match."))))
     ∧ (form_password form = form_confirm_password form →
        user_exists (user_table db) (form_username form) (form_email form) →
        register generate_password_hash db ctx form salt =
          (db, Redirect "register"
                 (Some (danger, "Username or email already exists.")))))
  ∧ (current_user db ctx = None → method ctx = POST → ∀ name password,
       (∀ uid user, user_by_username (user_table db) name = Some (uid, user) →
          check_password_hash (password_hash user) password = false) →
       login check_password_hash db ctx name password =
         (db, Redirect "login" (Some (danger, "Invalid username or password.")),
          None))
  ∧ (current_user db ctx = None → ∀ q form k,
       books db ctx q = (db, unauthorized)
       ∧ add_book db ctx form = (db, unauthorized)
       ∧ edit_book db ctx k form = (db, unauthorized)
       ∧ delete_book db ctx k = (db, unauthorized)
       ∧ borrow db ctx k = (db, unauthorized)
       ∧ return_book db ctx k = (db, unauthorized)
       ∧ dashboard db ctx = (db, unauthorized)
       ∧ logout db ctx = (db, unauthorized, None))
  ∧ (∀ uid form q i,
       current_user db ctx = Some uid → method ctx = POST →
       parse_quantity (form_quantity form) = Some q →
       form_isbn form = Some i → i ≠ "" → isbn_in_use (book_table db) i →
       add_book db ctx form =
         (db, Redirect "add_book"
                (Some (danger, "A book with that ISBN already exists."))))
  ∧ (∀ uid k b,
       current_user db ctx = Some uid →
       book_table db !! k = Some b → quantity b ≤ 0 →
       borrow db ctx k =
         (db, Redirect "books" (Some (danger, "Book not available."))))
  ∧ (∀ uid k form,
       current_user db ctx = Some uid → book_table db !! k = None →
       k ≤ max_integer →
       edit_book db ctx k form = (db, NotFound)
       ∧ delete_book db ctx k = (db, NotFound)
       ∧ borrow db ctx k = (db, NotFound))
  ∧ (∀ uid i,
       current_user db ctx = Some uid → borrow_table db !! i = None →
       i ≤ max_integer →
       return_book db ctx i = (db, NotFound))
  ∧ (∀ uid k form,
       current_user db ctx = Some uid → book_table db !! k = None →
       max_integer < k →
       edit_book db ctx k form = (db, ServerError OverflowError)
       ∧ delete_book db ctx k = (db, ServerError OverflowError)
       ∧ borrow db ctx k = (db, ServerError OverflowError))
  ∧ (∀ uid i,
       current_user db ctx = Some uid → borrow_table db !! i = None →
       max_integer < i →
       return_book db ctx i = (db, ServerError OverflowError)).
Proof.
  split_and!.
  - intros Hu Hm form salt. split.
    + by apply register_mismatch.
    + by apply register_taken.
  - intros Hu Hm name password. by apply login_invalid.
  - intros Hu q form k.
    unfold books, add_book, edit_book, delete_book, borrow, return_book,
      dashboard, logout.
    rewrite !(login_required_anonymous _ _ _ Hu), Hu. done.
  - intros uid form q i. by apply add_book_conflict.
  - intros uid k b. by apply borrow_rejected.
  - intros uid k form Hu Hk Hrange.
    rewrite <- (missing_in_range k Hrange). by apply (unknown_book _ _ uid).
  - intros uid i Hu Hi Hrange.
    rewrite <- (missing_in_range i Hrange). by apply (unknown_borrow _ _ uid).
  - intros uid k form Hu Hk Hrange.
    rewrite <- (missing_out_of_range k Hrange). by apply (unknown_book _ _ uid).
  - intros uid i Hu Hi Hrange.
    rewrite <- (missing_out_of_range i Hrange).
    by apply (unknown_borrow _ _ uid).
Qed.

End Errors.

(** * Scenarios *)

Lemma length_append (a b : string) :
  String.length (a +:+ b) = (String.length a + String.length b)%nat.
Proof. induction a as [|c a IH]; simpl; [done|]. by rewrite IH. Qed.


Lemma demo_hash_differs salt password : demo_hash salt password ≠ password.
Proof.
  unfold demo_hash. intros H. apply (f_equal String.length) in H.
  rewrite !length_append in H. simpl in H. lia.
Qed.

Example members_only_registered :
  run demo_hash [(visitor 0, Register alice_form "salt")] empty_db = members_only.
Proof. vm_compute. reflexivity. Qed.

Example stocked_two : book_table (stocked 2) !! 1 = Some (dune 2 true).
Proof. vm_compute. reflexivity. Qed.

Example on_loan_book : book_table on_loan !! 1 = Some (dune 0 false).
Proof. vm_compute. reflexivity. Qed.

Example given_back_book : book_table given_back !! 1 = Some (dune 1 true).
Proof. vm_compute. reflexivity. Qed.

(** A book that has been lent cannot be deleted: the commit fails. *)
Example delete_lent_book :
  delete_book on_loan (member 1 30) 1 = (on_loan, ServerError IntegrityError)
  ∧ delete_book given_back (member 1 50) 1 = (given_back, ServerError IntegrityError)
  ∧ delete_book (stocked 2) (member 1 30) 1
    = (members_only, Redirect "books" (Some (info, "Book deleted."))).
Proof. vm_compute. split_and!; reflexivity. Qed.

(** Paths on which an exception leaves the view: a quantity that [int]
    rejects, an edit to an ISBN another book holds, and a second book with
    an empty ISBN (the duplicate test skips the empty string, the unique
    index does not). *)
Example exceptions_leave_the_view :
  add_book members_only (member 1 10) (dune_form QMalformed)
    = (members_only, ServerError ValueError)
  ∧ edit_book two_titles (member 1 30) 2 (dune_form (QInt 1))
    = (two_titles, ServerError IntegrityError)
  ∧ (let db1 := (add_book members_only (member 1 10) pamphlet_form).1 in
     book_table db1 !! 1 = Some (mkBook "Pamphlet" "Anonymous" (Some "") 1 true)
     ∧ add_book db1 (member 1 11) pamphlet_form = (db1, ServerError IntegrityError)).
Proof. vm_compute. split_and!; reflexivity. Qed.

(** [LIKE] reads characters, not bytes, and stops at a NUL byte: [_] stands
    for the two bytes of one accented letter, a text is searched up to its
    first NUL only, and so is the query. *)
Example like_reads_characters :
  contains "Düne" "D_ne" = true
  ∧ contains "Düne" "D__ne" = false
  ∧ contains ("ab" +:+ String "000" "cd") "cd" = false
  ∧ contains ("ab" +:+ String "000" "cd") "AB" = true
  ∧ contains "ab" ("b" +:+ String "000" "x") = true
  ∧ String.length "Düne" = 5%nat.
Proof. vm_compute. split_and!; reflexivity. Qed.

(** [borrow] writes the flag only when the quantity reaches 0: on a store
    the views do not produce, two copies flagged unavailable, the flag is
    left as it is. *)
Example borrow_leaves_flag :
  book_table (borrow (mkDB {[1 := alice]} {[1 := dune 2 false]} ∅) (member 1 20) 1).1
    !! 1 = Some (dune 1 false).
Proof. vm_compute. reflexivity. Qed.

(** The scenario of the spec: two copies, borrowed by two different users,
    then one of the loans returned. *)
Example two_copies_scenario :
  let db1 := run demo_hash [(visitor 11, Register bob_form "pepper")] (stocked 2) in
  let db2 := run demo_hash [(member 1 20, BorrowBook 1); (member 2 21, BorrowBook 1)]
               db1 in
  let db3 := run demo_hash [(member 2 30, ReturnBook 1)] db2 in
  book_table db2 !! 1 = Some (dune 0 false)
  ∧ borrow_table db2 !! 2 = Some (mkBorrow 2 1 21 None)
  ∧ book_table db3 !! 1 = Some (dune 1 true).
Proof. vm_compute. split_and!; reflexivity. Qed.

(** ** Where the claims and the code part *)

(** C1 fails as stated: Dune is added with one copy and borrowed, its
    quantity is edited to -1, the loan is returned, and the flag is [true]
    over quantity 0.  It stays so after the next add and after the next
    borrow, which the view rejects. *)
Lemma available_counterexample :
  let db1 := (add_book members_only (member 1 10) (dune_form (QInt 1))).1 in
  let db2 := (borrow db1 (member 1 20) 1).1 in
  let db3 := (edit_book db2 (member 1 30) 1 (dune_form (QInt (-1)))).1 in
  let db4 := (return_book db3 (member 1 40) 1).1 in
  let db5 := (add_book db4 (member 1 50) emma_form).1 in
  let db6 := (borrow db5 (member 1 60) 1).1 in
  book_table db3 !! 1 = Some (dune (-1) false)
  ∧ book_table db4 !! 1 = Some (dune 0 true)
  ∧ book_table db5 !! 1 = Some (dune 0 true)
  ∧ (borrow db5 (member 1 60) 1).2
    = Redirect "books" (Some (danger, "Book not available."))
  ∧ book_table db6 !! 1 = Some (dune 0 true)
  ∧ available (dune 0 true) ≠ bool_decide (quantity (dune 0 true) > 0).
Proof. vm_compute. split_and!; (reflexivity || discriminate). Qed.

(** C6 fails as stated: [add_book] stores a negative quantity it is given,
    and [edit_book] does the same. *)
Lemma quantity_counterexample :
  add_book members_only (member 1 10) (dune_form (QInt (-5)))
  = (mkDB {[1 := alice]} {[1 := dune (-5) false]} ∅,
     Redirect "books" (Some (success, "Book added successfully.")))
  ∧ book_table (edit_book (stocked 2) (member 1 30) 1 (dune_form (QInt (-1)))).1 !! 1
    = Some (dune (-1) false)
  ∧ ¬ 0 ≤ quantity (dune (-5) false).
Proof. vm_compute. split_and!; (reflexivity || (intros H; by apply H)). Qed.


(** C5 fails as stated: Dune is lent, its quantity is edited to 2^63 - 1,
    and the return of the open loan ends in [OverflowError]: the loan stays
    open and the quantity is what it was. *)
Lemma return_counterexample :
  reachable demo_hash brimful
  ∧ borrow_table brimful !! 1 = Some (mkBorrow 1 1 20 None)
  ∧ book_table brimful !! 1 = Some (dune max_integer true)
  ∧ return_book brimful (member 1 40) 1 = (brimful, ServerError OverflowError).
Proof.
  split; [apply run_reachable, reachable_init|].
  vm_compute. split_and!; reflexivity.
Qed.

(** C9 fails as stated: an unknown book id is answered with a 404, which is
    not a redirect; deleting a book that has been lent ends in an
    exception; and so does [return_book] on an open loan whose book row is
    missing. *)
Lemma errors_counterexample :
  borrow members_only (member 1 10) 7 = (members_only, NotFound)
  ∧ delete_book on_loan (member 1 30) 1 = (on_loan, ServerError IntegrityError)
  ∧ return_book orphaned (member 1 40) 1 = (orphaned, ServerError AttributeError).
Proof. vm_compute. split_and!; reflexivity. Qed.

(** ** The theorems at work *)

Lemma borrow_success_witness :
  borrow (stocked 2) (member 1 20) 1
  = (mkDB {[1 := alice]} {[1 := dune 1 true]} {[1 := mkBorrow 1 1 20 None]},
     Redirect "books"
       (Some (success, "You borrowed " +:+ dquote +:+ "Dune" +:+ dquote +:+ "."))).
Proof.
  destruct (borrow_success demo_hash (stocked 2) (member 1 20) 1 1 (dune 2 true))
    as [H _].
  - apply run_reachable, reachable_init.
  - vm_compute; reflexivity.
  - vm_compute; reflexivity.
  - simpl; lia.
  - rewrite H. vm_compute. reflexivity.
Defined.

Lemma borrow_unavailable_witness :
  (borrow on_loan (member 1 30) 1).2
    = Redirect "books" (Some (danger, "Book not available."))
  ∧ (borrow on_loan (member 1 30) 1).1 = on_loan.
Proof.
  destruct (borrow_unavailable on_loan (member 1 30) 1 1 (dune 0 false))
    as (H1 & H2 & _).
  - vm_compute; reflexivity.
  - vm_compute; reflexivity.
  - simpl; lia.
  - by split.
Defined.

Lemma return_success_witness :
  (∃ db', return_book on_loan (member 1 40) 1
          = (db', Redirect "dashboard"
                    (Some (success, "Book " +:+ dquote +:+ "Dune" +:+ dquote
                                    +:+ " returned successfully.")))
   ∧ borrow_table db' !! 1 = Some (mkBorrow 1 1 20 (Some 40))
   ∧ book_table db' !! 1 = Some (dune 1 true))
  ∧ return_book brimful (member 1 40) 1 = (brimful, ServerError OverflowError).
Proof.
  split.
  - destruct (return_success on_loan (member 1 40) 1 1 (mkBorrow 1 1 20 None)
                (dune 0 false)) as [H _].
    + vm_compute; reflexivity.
    + vm_compute; reflexivity.
    + reflexivity.
    + vm_compute; reflexivity.
    + destruct H as (db' & H & Hrows & Hbooks & _); [by vm_compute|].
      exists db'. split; [exact H|]. rewrite Hrows, Hbooks.
      split; vm_compute; reflexivity.
  - destruct (return_success brimful (member 1 40) 1 1 (mkBorrow 1 1 20 None)
                (dune max_integer true)) as [_ H].
    + vm_compute; reflexivity.
    + vm_compute; reflexivity.
    + reflexivity.
    + vm_compute; reflexivity.
    + apply H. unfold storable. simpl. vm_compute. intros [_ Hle]. by apply Hle.
Defined.

Lemma return_already_returned_witness :
  return_book given_back (member 1 50) 1
  = (given_back, Redirect "dashboard" (Some (info, "This book is already returned.")))
  ∧ return_book (return_book on_loan (member 1 40) 1).1 (member 1 50) 1
    = ((return_book on_loan (member 1 40) 1).1,
       Redirect "dashboard" (Some (info, "This book is already returned."))).
Proof.
  split.
  - destruct (return_already_returned given_back (member 1 50) (member 1 60) 1 1
                (mkBorrow 1 1 20 (Some 40))) as [H _].
    + vm_compute; reflexivity.
    + vm_compute; reflexivity.
    + vm_compute; reflexivity.
    + apply (H 40). reflexivity.
  - destruct (return_already_returned on_loan (member 1 40) (member 1 50) 1 1
                (mkBorrow 1 1 20 None)) as [_ H].
    + vm_compute; reflexivity.
    + vm_compute; reflexivity.
    + vm_compute; reflexivity.
    + destruct (H (dune 0 false)) as [Hok _];
        [reflexivity | vm_compute; reflexivity |].
      apply Hok. by vm_compute.
Defined.

Lemma borrow_twice_same_user_witness :
  borrow_table (borrow (borrow (stocked 2) (member 1 20) 1).1 (member 1 21) 1).1 !! 1
    = Some (mkBorrow 1 1 20 None)
  ∧ borrow_table (borrow (borrow (stocked 2) (member 1 20) 1).1 (member 1 21) 1).1 !! 2
    = Some (mkBorrow 1 1 21 None).
Proof.
  destruct (borrow_twice_same_user (stocked 2) (member 1 20) (member 1 21) 1 1
              (dune 2 true)) as (_ & _ & _ & _ & _ & Hi & Hj & _).
  - vm_compute; reflexivity.
  - vm_compute; reflexivity.
  - vm_compute; reflexivity.
  - simpl; lia.
  - split; [exact Hi | exact Hj].
Defined.

Lemma register_spec_witness :
  (∃ user,
     register demo_hash empty_db (visitor 0) alice_form "salt"
     = (mkDB (<[1 := user]> ∅) ∅ ∅,
        Redirect "login" (Some (success, "Registration successful. Please login.")))
     ∧ username user = "alice"
     ∧ password_hash user = demo_hash "salt" "secret"
     ∧ password_hash user ≠ "secret")
  ∧ register demo_hash members_only (visitor 5)
      (mkRegisterForm "Bob" "bob" "bob@example.org" "hunter2" "hunter3") "pepper"
    = (members_only, Redirect "register" (Some (danger, "Passwords do not match."))).
Proof.
  split.
  - destruct (register_spec demo_hash demo_hash_differs empty_db (visitor 0)
                alice_form "salt") as (_ & _ & H); [reflexivity..|].
    destruct H as (user & H & _ & _ & Hname & _ & Hhash & Hne).
    + reflexivity.
    + apply map_Exists_empty.
    + exists user. split; [exact H|]. by split_and!.
  - destruct (register_spec demo_hash demo_hash_differs members_only (visitor 5)
                (mkRegisterForm "Bob" "bob" "bob@example.org" "hunter2" "hunter3")
                "pepper") as (H & _); [reflexivity..|].
    apply H. vm_compute. discriminate.
Defined.


Lemma errors_at_the_boundary_witness :
  borrow on_loan (member 1 30) 1
    = (on_loan, Redirect "books" (Some (danger, "Book not available.")))
  ∧ borrow on_loan (member 1 30) 7 = (on_loan, NotFound)
  ∧ return_book on_loan (member 1 30) 7 = (on_loan, NotFound)
  ∧ borrow on_loan (member 1 30) (max_integer + 1)
    = (on_loan, ServerError OverflowError)
  ∧ return_book on_loan (member 1 30) (max_integer + 1)
    = (on_loan, ServerError OverflowError)
  ∧ borrow on_loan (visitor 30) 1 = (on_loan, unauthorized)
  ∧ login demo_check on_loan (visitor 30) "alice" "guess"
    = (on_loan, Redirect "login" (Some (danger, "Invalid username or password.")),
       None)
  ∧ add_book on_loan (member 1 30) (dune_form QBlank)
    = (on_loan, Redirect "add_book"
                  (Some (danger, "A book with that ISBN already exists."))).
Proof.
  destruct (errors_at_the_boundary demo_hash demo_check on_loan (member 1 30))
    as (_ & _ & _ & Hisbn & Hzero & Hbook & Hloan & Hbig & Hbig').
  destruct (errors_at_the_boundary demo_hash demo_check on_loan (visitor 30))
    as (_ & Hlogin & Hanon & _).
  split_and!.
  - apply (Hzero 1 1 (dune 0 false)); [vm_compute; reflexivity..|simpl; lia].
  - apply (Hbook 1 7 (dune_form QBlank)); by vm_compute.
  - apply (Hloan 1 7); by vm_compute.
  - apply (Hbig 1 (max_integer + 1) (dune_form QBlank)); by vm_compute.
  - apply (Hbig' 1 (max_integer + 1)); by vm_compute.
  - apply (Hanon eq_refl "" (dune_form QBlank) 1).
  - apply Hlogin; [reflexivity..|].
    intros uid user Huser. vm_compute in Huser.
    injection Huser as <- <-. vm_compute. reflexivity.
  - apply (Hisbn 1 (dune_form QBlank) 1 "9780441013593");
      [vm_compute; reflexivity..|discriminate|].
    exists 1, (dune 0 false). split; [vm_compute; reflexivity|reflexivity].
Defined.

Lemma available_matches_quantity_witness :
  forallb nonneg_quantity returning = true
  ∧ book_table given_back !! 1 = Some (dune 1 true)
  ∧ available (dune 1 true) = bool_decide (quantity (dune 1 true) > 0)
  ∧ available <$> book_table (return_book on_loan (member 1 40) 1).1 !! 1 = Some true.
Proof.
  split_and!.
  - vm_compute. reflexivity.
  - vm_compute. reflexivity.
  - apply (proj1 (available_matches_quantity demo_hash returning)) with (k := 1);
      vm_compute; reflexivity.
  - destruct (available_matches_quantity demo_hash lending) as (_ & _ & H).
    apply (H (member 1 40) 1 1 (mkBorrow 1 1 20 None) (dune 0 false));
      vm_compute; reflexivity.
Defined.

Lemma quantity_nonnegative_witness :
  forallb nonneg_quantity returning = true
  ∧ book_table given_back !! 1 = Some (dune 1 true)
  ∧ 0 ≤ quantity (dune 1 true).
Proof.
  split_and!.
  - vm_compute. reflexivity.
  - vm_compute. reflexivity.
  - apply (proj2 (quantity_nonnegative demo_hash) returning) with (k := 1);
      vm_compute; reflexivity.
Defined.

(** * Further properties *)

(** ** The User table *)

Section Users.

Variable generate_password_hash : string → string → string.
Variable check_password_hash : string → string → bool.

#[local] Abbreviation handle := (handle generate_password_hash).
#[local] Abbreviation run := (run generate_password_hash).
#[local] Abbreviation reachable := (reachable generate_password_hash).

(** Only a registration that goes through writes to the User table, and it
    writes one row under an unused key. *)
Lemma handle_user_table db cr :
  user_table (handle db cr).1 = user_table db
  ∨ ∃ u, user_table (handle db cr).1
           = <[next_id (user_table db) := u]> (user_table db)
         ∧ ¬ user_exists (user_table db) (username u) (email u).
Proof.
  destruct cr as [ctx req]. unfold handle. simpl.
  destruct req as [form salt|form|k form|k|k|i]; simpl.
  - unfold register.
    destruct (current_user db ctx); simpl; [by left|].
    destruct (method ctx); simpl; [by left|].
    case_bool_decide; simpl; [by left|].
    case_bool_decide as Hex; simpl; [by left|].
    right. eexists. split; [done|]. done.
  - left. unfold add_book, login_required. by repeat (case_match; simpl).
  - left. unfold edit_book, login_required. by repeat (case_match; simpl).
  - left. unfold delete_book, login_required. by repeat (case_match; simpl).
  - left. unfold borrow, login_required. by repeat (case_match; simpl).
  - left. unfold return_book, login_required. by repeat (case_match; simpl).
Qed.

Lemma handle_keeps_user db cr i u :
  user_table db !! i = Some u → user_table (handle db cr).1 !! i = Some u.
Proof.
  intros Hi. destruct (handle_user_table db cr) as [->|(v & -> & _)]; [done|].
  rewrite lookup_insert_ne; [done|].
  intros <-. by rewrite next_id_fresh in Hi.
Qed.

Lemma run_keeps_user trace db i u :
  user_table db !! i = Some u → user_table (run trace db) !! i = Some u.
Proof.
  revert db. induction trace as [|cr trace IH]; intros db Hi; [done|].
  simpl. apply IH. by apply handle_keeps_user.
Qed.

Lemma handle_users_unique db cr :
  users_unique (user_table db) → users_unique (user_table (handle db cr).1).
Proof.
  intros Huniq.
  destruct (handle_user_table db cr) as [->|(w & -> & Hnew)]; [done|].
  intros i j u v Hi Hj Hsame.
  destruct (decide (i = next_id (user_table db))) as [->|Hin];
    destruct (decide (j = next_id (user_table db))) as [->|Hjn]; [done|..].
  - rewrite lookup_insert_eq in Hi. rewrite lookup_insert_ne in Hj by done.
    injection Hi as ->. destruct Hnew. exists j, v. split; [done|].
    destruct Hsame as [H|H]; [left|right]; done.
  - rewrite lookup_insert_eq in Hj. rewrite lookup_insert_ne in Hi by done.
    injection Hj as ->. destruct Hnew. exists i, u. split; [done|].
    destruct Hsame as [H|H]; [left|right]; done.
  - rewrite lookup_insert_ne in Hi, Hj by done. by eapply Huniq.
Qed.

Lemma reachable_users_unique db : reachable db → users_unique (user_table db).
Proof.
  induction 1 as [|db cr _ IH].
  - intros i j u v Hi. simpl in Hi. by rewrite lookup_empty in Hi.
  - by apply handle_users_unique.
Qed.

(** X1: in every store a run of requests produces from empty tables, two
    User rows with the same username, or with the same email, are one and
    the same row, and two different rows differ in both. *)
Theorem usernames_and_emails_unique trace i j u v :
  user_table (run trace empty_db) !! i = Some u →
  user_table (run trace empty_db) !! j = Some v →
  (username u = username v ∨ email u = email v → i = j ∧ u = v)
  ∧ (i ≠ j → username u ≠ username v ∧ email u ≠ email v).
Proof.
  intros Hi Hj.
  assert (Hsame : username u = username v ∨ email u = email v → i = j).
  { intros Hsame. eapply (reachable_users_unique (run trace empty_db)); [|done..].
    apply run_reachable. constructor. }
  split.
  - intros H. destruct (Hsame H). split; [done|]. congruence.
  - intros Hne. split; intros H; apply Hne, Hsame; [by left|by right].
Qed.

(** X2: no request removes or rewrites a User row, so a session that
    resolves to a user keeps resolving to that user after any run of
    requests. *)
Theorem users_are_kept trace db :
  (∀ i u, user_table db !! i = Some u → user_table (run trace db) !! i = Some u)
  ∧ (∀ ctx uid, current_user db ctx = Some uid →
       current_user (run trace db) ctx = Some uid).
Proof.
  split.
  - intros i u. apply run_keeps_user.
  - intros ctx uid. unfold current_user.
    destruct (session_user ctx) as [k|]; [|done].
    destruct (user_table db !! k) as [u|] eqn:Hk; [|done].
    by rewrite (run_keeps_user trace db k u Hk).
Qed.

(** ** Login *)

Lemma user_by_username_Some us name uid u :
  user_by_username us name = Some (uid, u) →
  us !! uid = Some u ∧ username u = name.
Proof.
  unfold user_by_username. intros Hhead.
  apply head_Some_elem_of in Hhead.
  apply elem_of_map_to_list in Hhead.
  by apply map_lookup_filter_Some in Hhead.
Qed.

Lemma user_by_username_None us name :
  user_by_username us name = None →
  ∀ i u, us !! i = Some u → username u ≠ name.
Proof.
  unfold user_by_username. intros Hhead i u Hi Hname.
  apply head_None in Hhead. apply map_to_list_empty_iff in Hhead.
  assert (H : filter (λ ku : Z * User, username ku.2 = name) us !! i = Some u)
    by (by apply map_lookup_filter_Some).
  by rewrite Hhead, lookup_empty in H.
Qed.

Lemma user_by_username_unique us uid u :
  users_unique us → us !! uid = Some u →
  user_by_username us (username u) = Some (uid, u).
Proof.
  intros Huniq Hu.
  destruct (user_by_username us (username u)) as [[j v]|] eqn:E.
  - apply user_by_username_Some in E as [Hj Hname].
    assert (j = uid) as -> by (eapply Huniq; eauto).
    congruence.
  - by destruct (user_by_username_None _ _ E uid u Hu).
Qed.

(** X3: for a form posted by a visitor, [login] goes through exactly when
    a user has the submitted username and the stored hash accepts the
    password, and then binds that user; an unknown username and a wrong
    password get the same answer, and the store is left as it is. *)
Theorem login_spec db ctx name password :
  reachable db →
  current_user db ctx = None →
  method ctx = POST →
  (∀ uid u, user_table db !! uid = Some u → username u = name →
     login check_password_hash db ctx name password =
       if check_password_hash (password_hash u) password then
         (db, Redirect "dashboard" (Some (success, "Logged in successfully.")),
          Some uid)
       else
         (db, Redirect "login" (Some (danger, "Invalid username or password.")),
          None))
  ∧ ((∀ uid u, user_table db !! uid = Some u → username u ≠ name) →
     login check_password_hash db ctx name password =
       (db, Redirect "login" (Some (danger, "Invalid username or password.")),
        None)).
Proof.
  intros Hreach Hu Hm. unfold login. rewrite Hu, Hm. split.
  - intros uid u Hrow <-.
    by rewrite (user_by_username_unique _ _ _ (reachable_users_unique _ Hreach) Hrow).
  - intros Hnone.
    destruct (user_by_username (user_table db) name) as [[j v]|] eqn:E; [|done].
    apply user_by_username_Some in E as [Hj Hname]. by destruct (Hnone j v).
Qed.

(** X4: after a registration that goes through, a login with the same
    username and password is accepted, provided the hash check accepts the
    password against the hash made of it, and binds the new user; requests
    that carry that session are served as that user. *)
Theorem register_then_login db ctx ctx' form salt :
  reachable db →
  current_user db ctx = None →
  method ctx = POST →
  session_user ctx' = None →
  method ctx' = POST →
  form_password form = form_confirm_password form →
  ¬ user_exists (user_table db) (form_username form) (form_email form) →
  check_password_hash
    (generate_password_hash salt (form_password form)) (form_password form) = true →
  let db' := (register generate_password_hash db ctx form salt).1 in
  let uid := next_id (user_table db) in
  login check_password_hash db' ctx' (form_username form) (form_password form)
    = (db', Redirect "dashboard" (Some (success, "Logged in successfully.")),
       Some uid)
  ∧ ∀ m t, current_user db' (mkContext m (Some uid) t) = Some uid.
Proof.
  intros Hreach Hu Hm Hs' Hm' Heq Hnew Hcheck db' uid.
  assert (Hreach' : reachable db').
  { apply (reachable_step _ db (ctx, Register form salt) Hreach). }
  subst db'. rewrite (register_created _ _ _ _ _ Hu Hm Heq Hnew) in *.
  simpl in *.
  set (user := mkUser _ _ _ _ _) in *.
  assert (Hrow : <[uid := user]> (user_table db) !! uid = Some user)
    by apply lookup_insert_eq.
  split.
  - unfold login, current_user. rewrite Hs', Hm'. simpl.
    pose proof (user_by_username_unique _ _ _
                  (reachable_users_unique _ Hreach') Hrow) as Hfind.
    simpl in Hfind. rewrite Hfind. simpl. by rewrite Hcheck.
  - intros m t. unfold current_user. simpl. by rewrite lookup_insert_eq.
Qed.

End Users.

(** ** The Borrow table *)

Lemma loan_extends_refl r : loan_extends r r.
Proof. by unfold loan_extends. Qed.

Lemma loan_extends_trans r1 r2 r3 :
  loan_extends r1 r2 → loan_extends r2 r3 → loan_extends r1 r3.
Proof.
  unfold loan_extends. intros (Hu & Hb & Ht & Hr) (Hu' & Hb' & Ht' & Hr').
  split_and!; [congruence..|]. intros t H. by apply Hr', Hr.
Qed.

Section Loans.

Variable generate_password_hash : string → string → string.

#[local] Abbreviation handle := (handle generate_password_hash).
#[local] Abbreviation run := (run generate_password_hash).
#[local] Abbreviation reachable := (reachable generate_password_hash).

(** A request leaves the Borrow table as it is, adds one open row under an
    unused key, or stamps one open row as returned. *)
Lemma handle_borrow_table db cr :
  borrow_table (handle db cr).1 = borrow_table db
  ∨ (∃ r, returned_at r = None
          ∧ borrow_table (handle db cr).1
            = <[next_id (borrow_table db) := r]> (borrow_table db))
  ∨ (∃ i r t, borrow_table db !! i = Some r ∧ returned_at r = None
              ∧ borrow_table (handle db cr).1
                = <[i := set_returned_at (Some t) r]> (borrow_table db)).
Proof.
  destruct cr as [ctx req]. unfold handle. simpl.
  destruct req as [form salt|form|k form|k|k|i]; simpl.
  - left. unfold register. by repeat (case_match; simpl).
  - left. unfold add_book, login_required. by repeat (case_match; simpl).
  - left. unfold edit_book, login_required. by repeat (case_match; simpl).
  - left. unfold delete_book, login_required. by repeat (case_match; simpl).
  - unfold borrow, login_required.
    destruct (current_user db ctx); simpl; [|by left].
    destruct (book_table db !! k); simpl; [|by left].
    case_bool_decide; simpl; [by left|].
    right. left. eexists. split; [|reflexivity]. done.
  - unfold return_book, login_required.
    destruct (current_user db ctx); simpl; [|by left].
    destruct (borrow_table db !! i) as [r|] eqn:Hi; simpl; [|by left].
    destruct (returned_at r) eqn:Hopen; simpl; [by left|].
    destruct (book_table db !! book_id r); simpl; [|by left].
    case_decide; simpl; [by left|].
    right. right. by exists i, r, (now ctx).
Qed.

Lemma handle_keeps_loan db cr i r :
  borrow_table db !! i = Some r →
  ∃ r', borrow_table (handle db cr).1 !! i = Some r' ∧ loan_extends r r'.
Proof.
  intros Hi.
  destruct (handle_borrow_table db cr)
    as [->|[(r0 & _ & ->)|(j & r0 & t & Hj & Hopen & ->)]].
  - exists r. split; [done|apply loan_extends_refl].
  - exists r. split; [|apply loan_extends_refl].
    rewrite lookup_insert_ne; [done|].
    intros <-. by rewrite next_id_fresh in Hi.
  - destruct (decide (j = i)) as [->|Hne].
    + exists (set_returned_at (Some t) r0). rewrite lookup_insert_eq.
      split; [done|]. assert (r0 = r) as -> by congruence.
      unfold loan_extends. simpl. split_and!; try done.
      intros t'. by rewrite Hopen.
    + exists r. rewrite lookup_insert_ne by done.
      split; [done|apply loan_extends_refl].
Qed.

Lemma run_keeps_loan trace db i r :
  borrow_table db !! i = Some r →
  ∃ r', borrow_table (run trace db) !! i = Some r' ∧ loan_extends r r'.
Proof.
  revert db r. induction trace as [|cr trace IH]; intros db r Hi.
  - exists r. split; [done|apply loan_extends_refl].
  - destruct (handle_keeps_loan db cr i r Hi) as (r1 & H1 & Hext1).
    destruct (IH _ _ H1) as (r2 & H2 & Hext2).
    exists r2. split; [done|]. by eapply loan_extends_trans.
Qed.

(** X5: a Borrow row is never removed, and no run of requests changes its
    user, its book or its borrowed timestamp; once it carries a returned
    timestamp it keeps that timestamp. *)
Theorem loans_are_kept trace db i r :
  borrow_table db !! i = Some r →
  ∃ r', borrow_table (run trace db) !! i = Some r'
        ∧ user_id r' = user_id r
        ∧ book_id r' = book_id r
        ∧ borrowed_at r' = borrowed_at r
        ∧ (∀ t, returned_at r = Some t → returned_at r' = Some t).
Proof. intros Hi. by apply run_keeps_loan. Qed.

(** X6: in a store the views produce, a book that has a Borrow row, open
    or returned, stays in the Book table through every later run of
    requests: deleting it ends in [IntegrityError] and changes nothing.
    So [return_book] always finds the book of a loan. *)
Theorem lent_books_stay trace db i r :
  reachable db →
  borrow_table db !! i = Some r →
  let db' := run trace db in
  is_Some (book_table db' !! book_id r)
  ∧ (∀ ctx uid, current_user db' ctx = Some uid →
       delete_book db' ctx (book_id r) = (db', ServerError IntegrityError))
  ∧ (∀ ctx j, (return_book db' ctx j).2 ≠ ServerError AttributeError).
Proof.
  intros Hreach Hi db'.
  assert (Hreach' : reachable db') by by apply run_reachable.
  destruct (run_keeps_loan trace db i r Hi) as (r' & Hi' & _ & Hbook & _).
  fold db' in Hi'.
  pose proof (reachable_loans_resolve _ db' Hreach' i r' Hi') as Hfound.
  simpl in Hfound. rewrite Hbook in Hfound.
  split_and!; [done| |].
  - intros ctx uid Hu. unfold delete_book.
    rewrite (login_required_user _ _ _ _ Hu).
    destruct Hfound as [b ->].
    rewrite decide_True; [done|]. by exists i, r'.
  - intros ctx j. by apply (return_book_finds_book generate_password_hash).
Qed.

End Loans.

(** ** The Book table *)

Lemma isbn_unique_insert bs k b' :
  isbn_unique bs → ¬ isbn_clash bs k (isbn b') → isbn_unique (<[k := b']> bs).
Proof.
  intros Huniq Hfree i j b c s Hi Hj Hb Hc.
  destruct (decide (i = k)) as [->|Hik]; destruct (decide (j = k)) as [->|Hjk];
    [done|..].
  - rewrite lookup_insert_eq in Hi. rewrite lookup_insert_ne in Hj by done.
    injection Hi as ->. destruct Hfree. rewrite Hb. simpl. by exists j, c.
  - rewrite lookup_insert_eq in Hj. rewrite lookup_insert_ne in Hi by done.
    injection Hj as ->. destruct Hfree. rewrite Hc. simpl. by exists i, b.
  - rewrite lookup_insert_ne in Hi, Hj by done. by eapply Huniq.
Qed.

Lemma isbn_unique_update bs k b b' :
  isbn_unique bs → bs !! k = Some b → isbn b' = isbn b →
  isbn_unique (<[k := b']> bs).
Proof.
  intros Huniq Hk Hsame. apply isbn_unique_insert; [done|].
  rewrite Hsame. unfold isbn_clash.
  destruct (isbn b) as [s|] eqn:Hs; [|by intros []].
  intros (j & c & Hj & Hne & Hc). apply Hne. by eapply Huniq.
Qed.

Lemma isbn_unique_delete bs k : isbn_unique bs → isbn_unique (delete k bs).
Proof.
  intros Huniq i j b c s Hi Hj.
  apply lookup_delete_Some in Hi as [_ Hi], Hj as [_ Hj]. by eapply Huniq.
Qed.

(** Counting the rows of a table that satisfy a test, across one write. *)
Section Counting.

Context {A : Type} (P : Z * A → Prop) `{!∀ x, Decision (P x)}.

Lemma size_filter_new (m : gmap Z A) i y :
  m !! i = None →
  size (filter P (<[i := y]> m))
  = if decide (P (i, y)) then S (size (filter P m)) else size (filter P m).
Proof.
  intros Hi. case_decide.
  - rewrite map_filter_insert_True by done.
    apply map_size_insert_None, map_lookup_filter_None_2. by left.
  - rewrite map_filter_insert_False by done. by rewrite delete_id.
Qed.

Lemma size_filter_drop (m : gmap Z A) i x y :
  m !! i = Some x → ¬ P (i, y) →
  size (filter P m)
  = if decide (P (i, x)) then S (size (filter P (<[i := y]> m)))
    else size (filter P (<[i := y]> m)).
Proof.
  intros Hi Hy. rewrite map_filter_insert_False, map_filter_delete by done.
  case_decide as Hx.
  - assert (Hin : filter P m !! i = Some x) by (by apply map_lookup_filter_Some).
    rewrite <- (insert_delete_id _ _ _ Hin) at 1.
    apply map_size_insert_None, lookup_delete_eq.
  - rewrite delete_id; [done|]. apply map_lookup_filter_None_2.
    right. intros x' Hx'. congruence.
Qed.

End Counting.

Section Catalog.

Variable generate_password_hash : string → string → string.

#[local] Abbreviation handle := (handle generate_password_hash).
#[local] Abbreviation run := (run generate_password_hash).
#[local] Abbreviation reachable := (reachable generate_password_hash).

Lemma handle_isbn_unique db cr :
  isbn_unique (book_table db) → isbn_unique (book_table (handle db cr).1).
Proof.
  intros Huniq. destruct cr as [ctx req]. unfold handle. simpl.
  destruct req as [form salt|form|k form|k|k|i]; simpl.
  - unfold register. by repeat (case_match; simpl).
  - unfold add_book, login_required.
    repeat (case_match; simpl; try done);
      (apply isbn_unique_insert; simpl; [done|]);
      first [assumption | by intros []].
  - unfold edit_book, login_required.
    repeat (case_match; simpl; try done);
      (apply isbn_unique_insert; simpl; [done|]);
      first [assumption | by intros []].
  - unfold delete_book, login_required.
    repeat (case_match; simpl; try done); by apply isbn_unique_delete.
  - unfold borrow, login_required.
    destruct (current_user db ctx); simpl; [|done].
    destruct (book_table db !! k) as [b|] eqn:Hb; simpl; [|done].
    case_bool_decide; simpl; [done|].
    apply (isbn_unique_update _ _ b); [done..|]. by case_bool_decide.
  - unfold return_book, login_required.
    destruct (current_user db ctx); simpl; [|done].
    destruct (borrow_table db !! i) as [r|]; simpl; [|done].
    destruct (returned_at r); simpl; [done|].
    destruct (book_table db !! book_id r) as [b|] eqn:Hb; simpl; [|done].
    case_decide; simpl; [done|].
    by apply (isbn_unique_update _ _ b).
Qed.

(** X7: in every store a run of requests produces from empty tables, two
    Book rows with the same ISBN, the empty string included, are one and
    the same row, and two different rows never carry the same ISBN; only an
    ISBN left NULL can be shared. *)
Theorem isbn_never_shared trace i j b c s :
  book_table (run trace empty_db) !! i = Some b →
  book_table (run trace empty_db) !! j = Some c →
  isbn b = Some s →
  (isbn c = Some s → i = j ∧ b = c)
  ∧ (i ≠ j → isbn c ≠ Some s).
Proof.
  intros Hi Hj Hb.
  assert (Hall : ∀ trace db, isbn_unique (book_table db) →
                             isbn_unique (book_table (run trace db))).
  { clear. induction trace as [|cr trace IH]; intros db Hdb; [done|].
    simpl. apply IH. by apply handle_isbn_unique. }
  assert (Hsame : isbn c = Some s → i = j).
  { intros Hc. eapply (Hall trace empty_db); [|done..].
    intros ? ? ? ? ? H. simpl in H. by rewrite lookup_empty in H. }
  split.
  - intros Hc. destruct (Hsame Hc). split; [done|]. congruence.
  - intros Hne Hc. by apply Hne, Hsame.
Qed.

(** For a book that is in the table before and after a request, the
    quantity plus the number of its open loans is the same before and
    after, whatever the request, an edit of that book apart. *)
Lemma handle_conserves_stock db cr k b b' :
  book_table db !! k = Some b →
  book_table (handle db cr).1 !! k = Some b' →
  (∀ form, cr.2 ≠ EditBook k form) →
  quantity b' + Z.of_nat (open_loans (borrow_table (handle db cr).1) k)
  = quantity b + Z.of_nat (open_loans (borrow_table db) k).
Proof.
  intros Hb Hb' Hedit. destruct cr as [ctx req]. unfold handle in *. simpl in *.
  destruct req as [form salt|form|k0 form|k0|k0|i]; simpl in *.
  - unfold register in *.
    repeat (case_match; simpl in *; try done); by simplify_eq.
  - unfold add_book, login_required in *.
    assert (Hfresh : k ≠ next_id (book_table db)).
    { intros ->. by rewrite next_id_fresh in Hb. }
    repeat (case_match; simpl in *; try done);
      try (rewrite lookup_insert_ne in Hb' by done); by simplify_eq.
  - assert (k0 ≠ k) by (intros ->; by destruct (Hedit form)).
    unfold edit_book, login_required in *.
    repeat (case_match; simpl in *; try done);
      try (rewrite lookup_insert_ne in Hb' by done); by simplify_eq.
  - unfold delete_book, login_required in *.
    repeat (case_match; simpl in *; try done);
      try (apply lookup_delete_Some in Hb' as [_ Hb']); by simplify_eq.
  - unfold borrow, login_required in *.
    destruct (current_user db ctx) as [uid|]; simpl in *; [|by simplify_eq].
    destruct (book_table db !! k0) as [b0|] eqn:Hb0; simpl in *; [|by simplify_eq].
    case_bool_decide as Hq; simpl in *; [by simplify_eq|].
    unfold open_loans.
    rewrite size_filter_new by apply next_id_fresh. simpl.
    destruct (decide (k0 = k)) as [->|Hne].
    + rewrite lookup_insert_eq in Hb'. rewrite decide_True by done.
      assert (b0 = b) as -> by congruence.
      assert (quantity b' = quantity b - 1) as ->.
      { injection Hb' as <-. by case_bool_decide. }
      lia.
    + rewrite lookup_insert_ne in Hb' by done.
      rewrite decide_False by (by intros []). by simplify_eq.
  - unfold return_book, login_required in *.
    destruct (current_user db ctx) as [uid|]; simpl in *; [|by simplify_eq].
    destruct (borrow_table db !! i) as [r|] eqn:Hi; simpl in *; [|by simplify_eq].
    destruct (returned_at r) eqn:Hopen; simpl in *; [by simplify_eq|].
    destruct (book_table db !! book_id r) as [b0|] eqn:Hb0; simpl in *;
      [|by simplify_eq].
    destruct (decide (¬ storable (quantity b0 + 1))); simpl in *;
      [by simplify_eq|].
    unfold open_loans.
    rewrite (size_filter_drop _ (borrow_table db) i r
               (set_returned_at (Some (now ctx)) r) Hi)
      by (by intros []).
    simpl.
    destruct (decide (book_id r = k)) as [Hk|Hne].
    + rewrite Hk in *. rewrite lookup_insert_eq in Hb'.
      rewrite decide_True by done.
      assert (b0 = b) as -> by congruence. injection Hb' as <-. simpl. lia.
    + rewrite lookup_insert_ne in Hb' by done.
      rewrite decide_False by (by intros []). by simplify_eq.
Qed.

Lemma handle_keeps_book db cr k b :
  book_table db !! k = Some b →
  rewrites_book k cr = false →
  is_Some (book_table (handle db cr).1 !! k).
Proof.
  intros Hb Hcr. destruct cr as [ctx req]. unfold handle, rewrites_book in *.
  simpl in *.
  destruct req as [form salt|form|k0 form|k0|k0|i]; simpl.
  - unfold register. repeat (case_match; simpl; try done); eauto.
  - unfold add_book, login_required.
    repeat (case_match; simpl; try done); eauto;
      apply lookup_insert_is_Some'; eauto.
  - unfold edit_book, login_required.
    repeat (case_match; simpl; try done); eauto;
      apply lookup_insert_is_Some'; eauto.
  - apply bool_decide_eq_false_1 in Hcr.
    unfold delete_book, login_required.
    repeat (case_match; simpl; try done); eauto.
    rewrite lookup_delete_ne by done. eauto.
  - unfold borrow, login_required.
    repeat (case_match; simpl; try done); eauto;
      apply lookup_insert_is_Some'; eauto.
  - unfold return_book, login_required.
    repeat (case_match; simpl; try done); eauto;
      apply lookup_insert_is_Some'; eauto.
Qed.

(** X8: copies are conserved.  Along a run of requests that neither edits
    nor deletes a book, the book stays in the table and its quantity plus
    the number of its open loans stays what it was: a borrow moves one copy
    from the shelf to the loans, a return moves it back, and nothing else
    touches either. *)
Theorem stock_is_conserved trace db k b :
  book_table db !! k = Some b →
  forallb (λ cr, negb (rewrites_book k cr)) trace = true →
  ∃ b', book_table (run trace db) !! k = Some b'
        ∧ quantity b' + Z.of_nat (open_loans (borrow_table (run trace db)) k)
          = quantity b + Z.of_nat (open_loans (borrow_table db) k).
Proof.
  revert db b. induction trace as [|cr trace IH]; intros db b Hb Hall.
  - exists b. by split.
  - simpl in Hall. apply andb_true_iff in Hall as [Hcr Hall].
    apply negb_true_iff in Hcr.
    destruct (handle_keeps_book db cr k b Hb Hcr) as [b1 Hb1].
    destruct (IH _ _ Hb1 Hall) as (b' & Hb' & Hsum).
    exists b'. split; [done|]. simpl. rewrite Hsum.
    apply (handle_conserves_stock db cr k b b1 Hb Hb1).
    intros form Heq. unfold rewrites_book in Hcr. rewrite Heq in Hcr.
    by rewrite bool_decide_eq_true_2 in Hcr.
Qed.

(** X9: in a store the views produce, borrowing a book and then returning
    that loan, by whichever logged-in user, puts the Book table back
    exactly as it was, quantity and flag included; what remains is one
    closed Borrow row. *)
Theorem borrow_then_return db ctx1 ctx2 uid uid' k b :
  reachable db →
  current_user db ctx1 = Some uid →
  current_user db ctx2 = Some uid' →
  book_table db !! k = Some b →
  0 < quantity b →
  let db1 := (borrow db ctx1 k).1 in
  let db2 := (return_book db1 ctx2 (next_id (borrow_table db))).1 in
  book_table db2 = book_table db
  ∧ user_table db2 = user_table db
  ∧ borrow_table db2
    = <[next_id (borrow_table db) := mkBorrow uid k (now ctx1) (Some (now ctx2))]>
        (borrow_table db).
Proof.
  intros Hreach Hu1 Hu2 Hb Hq.
  pose proof (reachable_flag_sound _ db Hreach k b Hb Hq) as Hflag.
  rewrite (borrow_accepted _ _ _ _ _ Hu1 Hb Hq). simpl.
  set (b1 := mkBook _ _ _ (quantity b - 1) _).
  set (i := next_id (borrow_table db)).
  set (row := mkBorrow uid k (now ctx1) None).
  set (db1 := mkDB _ _ _).
  assert (Hu2' : current_user db1 ctx2 = Some uid') by done.
  assert (Hrow : borrow_table db1 !! i = Some row) by apply lookup_insert_eq.
  assert (Hb1 : book_table db1 !! book_id row = Some b1) by apply lookup_insert_eq.
  assert (Hfit : storable (quantity b1 + 1)).
  { subst b1. simpl. replace (quantity b - 1 + 1) with (quantity b) by lia.
    apply (reachable_storable _ db Hreach k b Hb). }
  rewrite (return_book_open _ _ _ _ _ _ Hu2' Hrow eq_refl Hb1 Hfit). simpl.
  split_and!; [|done|by rewrite insert_insert_eq].
  rewrite insert_insert_eq. apply insert_id. rewrite Hb. f_equal.
  destruct b as [t a s q fl]. simpl in *. subst fl. f_equal. lia.
Qed.

(** X10: [edit_book] is idempotent: submitting the same edit a second time
    gives the answer of the first and leaves the store as the first left
    it, whatever the method, the session and the form. *)
Theorem edit_book_twice db ctx k form :
  let once := edit_book db ctx k form in
  edit_book once.1 ctx k form = (once.1, once.2).
Proof.
  simpl. unfold edit_book, login_required.
  destruct (current_user db ctx) as [uid|] eqn:Hu; simpl; [|by rewrite ?Hu].
  destruct (book_table db !! k) as [b|] eqn:Hb; simpl; [|by rewrite ?Hu, ?Hb].
  destruct (method ctx) eqn:Hm; simpl; [by rewrite ?Hu, ?Hb, ?Hm|].
  destruct (parse_quantity (form_quantity form)) as [q|] eqn:Hq; simpl;
    [|by rewrite ?Hu, ?Hb, ?Hm, ?Hq].
  destruct (decide (¬ storable q)) as [Hbig|Hfit]; simpl.
  { by rewrite ?Hu, ?Hb, ?Hm, ?Hq. }
  destruct (decide (isbn_clash (book_table db) k (form_isbn form)))
    as [Hclash|Hfree]; simpl.
  - rewrite ?Hu, ?Hb, ?Hm, ?Hq. simpl. by rewrite decide_True.
  - unfold current_user in *. simpl.
    rewrite ?Hu, lookup_insert_eq, ?Hm, ?Hq. simpl.
    rewrite decide_False.
    + by rewrite insert_insert_eq.
    + intros Hclash. apply Hfree. unfold isbn_clash in *.
      destruct (form_isbn form) as [s|]; [|done].
      destruct Hclash as (j & c & Hj & Hne & Hc).
      rewrite lookup_insert_ne in Hj by done. by exists j, c.
Qed.

(** X11: the dashboard follows the loans.  After a borrow that goes
    through it shows one more book on loan, after a return that goes
    through (an open loan of a book whose quantity plus one still fits the
    column) one less, and in both cases the same number of books and of
    users; after a return that ends in [OverflowError] it shows what it
    showed before. *)
Theorem dashboard_follows_loans db ctx uid :
  current_user db ctx = Some uid →
  dashboard db ctx
    = (db, Render (DashboardPage (size (book_table db)) (size (user_table db))
                                 (on_loan_count db)))
  ∧ (∀ ctx1 uid1 k b,
       current_user db ctx1 = Some uid1 →
       book_table db !! k = Some b → 0 < quantity b →
       dashboard (borrow db ctx1 k).1 ctx
         = ((borrow db ctx1 k).1,
            Render (DashboardPage (size (book_table db)) (size (user_table db))
                                  (S (on_loan_count db)))))
  ∧ (∀ ctx1 uid1 i r b,
       current_user db ctx1 = Some uid1 →
       borrow_table db !! i = Some r → returned_at r = None →
       book_table db !! book_id r = Some b →
       storable (quantity b + 1) →
       ∃ n, on_loan_count db = S n
            ∧ dashboard (return_book db ctx1 i).1 ctx
              = ((return_book db ctx1 i).1,
                 Render (DashboardPage (size (book_table db))
                                       (size (user_table db)) n)))
  ∧ (∀ ctx1 uid1 i r b,
       current_user db ctx1 = Some uid1 →
       borrow_table db !! i = Some r → returned_at r = None →
       book_table db !! book_id r = Some b →
       ¬ storable (quantity b + 1) →
       dashboard (return_book db ctx1 i).1 ctx = dashboard db ctx).
Proof.
  intros Hu. split_and!.
  - unfold dashboard. by rewrite (login_required_user _ _ _ _ Hu).
  - intros ctx1 uid1 k b Hu1 Hb Hq.
    rewrite (borrow_accepted _ _ _ _ _ Hu1 Hb Hq). simpl.
    unfold dashboard, login_required, current_user in *. simpl.
    destruct (session_user ctx) as [s|]; [|done].
    destruct (user_table db !! s); [|done]. simpl.
    rewrite map_size_insert_Some by eauto.
    rewrite size_filter_new by apply next_id_fresh. done.
  - intros ctx1 uid1 i r b Hu1 Hr Hopen Hb Hfit.
    rewrite (return_book_open _ _ _ _ _ _ Hu1 Hr Hopen Hb Hfit). simpl.
    eexists. split.
    + unfold on_loan_count.
      rewrite (size_filter_drop _ (borrow_table db) i r
                 (mkBorrow (user_id r) (book_id r) (borrowed_at r)
                    (Some (now ctx1))) Hr) by done.
      by rewrite decide_True.
    + unfold dashboard, login_required, current_user in *. simpl.
      destruct (session_user ctx) as [s|]; [|done].
      destruct (user_table db !! s); [|done]. simpl.
      by rewrite map_size_insert_Some by eauto.
  - intros ctx1 uid1 i r b Hu1 Hr Hopen Hb Hbig.
    by rewrite (return_book_overflow _ _ _ _ _ _ Hu1 Hr Hopen Hb Hbig).
Qed.


(** X13: a logged-in user deletes a book that has no Borrow row: the row
    is gone, and every other book, every user and every Borrow row is as
    it was.  In the store the delete leaves, an id of at most 2^63 - 1 is
    answered with a 404 by [borrow], [edit_book] and [delete_book]; a later
    add can take the id again. *)
Theorem delete_book_removes db ctx uid k b :
  current_user db ctx = Some uid →
  book_table db !! k = Some b →
  ¬ has_borrows (borrow_table db) k →
  let db' := (delete_book db ctx k).1 in
  (delete_book db ctx k).2 = Redirect "books" (Some (info, "Book deleted."))
  ∧ book_table db' !! k = None
  ∧ (∀ j, j ≠ k → book_table db' !! j = book_table db !! j)
  ∧ user_table db' = user_table db
  ∧ borrow_table db' = borrow_table db
  ∧ (k ≤ max_integer →
     borrow db' ctx k = (db', NotFound)
     ∧ delete_book db' ctx k = (db', NotFound)
     ∧ (∀ form, edit_book db' ctx k form = (db', NotFound))).
Proof.
  intros Hu Hb Hfree. unfold delete_book at 1 2.
  rewrite (login_required_user _ _ _ _ Hu), Hb, decide_False by done. simpl.
  set (db' := with_books _ db).
  assert (Hgone : book_table db' !! k = None) by apply lookup_delete_eq.
  assert (Hu' : current_user db' ctx = Some uid) by done.
  split_and!; try done.
  - intros j Hj. by apply lookup_delete_ne.
  - intros Hrange. rewrite <- (missing_in_range k Hrange).
    split_and!; [| |intros form];
      by apply (unknown_book db' ctx uid k (mkBookForm "" "" None QBlank))
      || by apply (unknown_book db' ctx uid k form).
Qed.

End Catalog.

(** ** The further properties at work *)

Lemma usernames_and_emails_unique_witness :
  user_table two_members = {[1 := alice; 2 := bob]}
  ∧ register demo_hash two_members (visitor 2) alice_again_form "dill"
    = (two_members,
       Redirect "register" (Some (danger, "Username or email already exists.")))
  ∧ register demo_hash two_members (visitor 3) rob_form "mint"
    = (two_members,
       Redirect "register" (Some (danger, "Username or email already exists.")))
  ∧ username alice ≠ username bob
  ∧ email alice ≠ email bob.
Proof.
  split_and!; [vm_compute; reflexivity..| |];
    apply (usernames_and_emails_unique demo_hash enrolment 1 2 alice bob);
    solve [vm_compute; reflexivity | lia].
Defined.

Lemma users_are_kept_witness :
  user_table given_back !! 1 = Some alice
  ∧ current_user given_back (member 1 99) = Some 1.
Proof.
  destruct (users_are_kept demo_hash
              [(member 1 10, AddBook (dune_form (QInt 1)));
               (member 1 20, BorrowBook 1); (member 1 40, ReturnBook 1)]
              members_only) as [Hrow Hsession].
  split.
  - apply (Hrow 1 alice). vm_compute; reflexivity.
  - apply (Hsession (member 1 99) 1). vm_compute; reflexivity.
Defined.

Lemma login_spec_witness :
  login demo_check on_loan (visitor 30) "alice" "secret"
    = (on_loan, Redirect "dashboard" (Some (success, "Logged in successfully.")),
       Some 1)
  ∧ login demo_check on_loan (visitor 30) "alice" "guess"
    = (on_loan, Redirect "login" (Some (danger, "Invalid username or password.")),
       None)
  ∧ login demo_check on_loan (visitor 30) "mallory" "secret"
    = (on_loan, Redirect "login" (Some (danger, "Invalid username or password.")),
       None).
Proof.
  assert (Hreach : reachable demo_hash on_loan)
    by apply run_reachable, reachable_init.
  split_and!.
  - destruct (login_spec demo_hash demo_check on_loan (visitor 30) "alice" "secret"
                Hreach eq_refl eq_refl) as [H _].
    rewrite (H 1 alice); [reflexivity|vm_compute; reflexivity|reflexivity].
  - destruct (login_spec demo_hash demo_check on_loan (visitor 30) "alice" "guess"
                Hreach eq_refl eq_refl) as [H _].
    rewrite (H 1 alice); [reflexivity|vm_compute; reflexivity|reflexivity].
  - destruct (login_spec demo_hash demo_check on_loan (visitor 30) "mallory"
                "secret" Hreach eq_refl eq_refl) as [_ H].
    apply H. intros uid u Hrow.
    assert (Htab : user_table on_loan = {[1 := alice]})
      by (vm_compute; reflexivity).
    rewrite Htab in Hrow. apply lookup_singleton_Some in Hrow as [_ <-].
    discriminate.
Defined.

Lemma register_then_login_witness :
  login demo_check (register demo_hash empty_db (visitor 0) alice_form "salt").1
    (visitor 5) "alice" "secret"
  = ((register demo_hash empty_db (visitor 0) alice_form "salt").1,
     Redirect "dashboard" (Some (success, "Logged in successfully.")), Some 1).
Proof.
  destruct (register_then_login demo_hash demo_check empty_db (visitor 0)
              (visitor 5) alice_form "salt") as [H _];
    [apply reachable_init|reflexivity..| |reflexivity|exact H].
  apply map_Exists_empty.
Defined.

Lemma loans_are_kept_witness :
  ∃ r', borrow_table given_back !! 1 = Some r'
        ∧ user_id r' = 1 ∧ book_id r' = 1 ∧ borrowed_at r' = 20.
Proof.
  destruct (loans_are_kept demo_hash [(member 1 40, ReturnBook 1)] on_loan 1
              (mkBorrow 1 1 20 None)) as (r' & Hrow & Hu & Hb & Ht & _).
  - vm_compute; reflexivity.
  - exists r'. split; [|done].
    assert (Hsame : given_back = run demo_hash [(member 1 40, ReturnBook 1)] on_loan)
      by (vm_compute; reflexivity).
    by rewrite Hsame.
Defined.

Lemma lent_books_stay_witness :
  is_Some (book_table (run demo_hash [(member 1 30, DeleteBook 1)] on_loan) !! 1)
  ∧ delete_book given_back (member 1 50) 1
    = (given_back, ServerError IntegrityError).
Proof.
  split.
  - destruct (lent_books_stay demo_hash [(member 1 30, DeleteBook 1)] on_loan 1
                (mkBorrow 1 1 20 None)) as [H _].
    + apply run_reachable, reachable_init.
    + vm_compute; reflexivity.
    + exact H.
  - destruct (lent_books_stay demo_hash [] given_back 1
                (mkBorrow 1 1 20 (Some 40))) as (_ & H & _).
    + apply run_reachable, reachable_init.
    + vm_compute; reflexivity.
    + apply (H (member 1 50) 1). vm_compute; reflexivity.
Defined.

Lemma isbn_never_shared_witness :
  book_table shelved = {[1 := dune 1 true; 2 := emma]}
  ∧ add_book shelved (member 1 12) (dune_form (QInt 3))
    = (shelved, Redirect "add_book"
                  (Some (danger, "A book with that ISBN already exists.")))
  ∧ edit_book shelved (member 1 13) 2 (dune_form (QInt 1))
    = (shelved, ServerError IntegrityError)
  ∧ isbn emma ≠ Some "9780441013593".
Proof.
  split_and!; [vm_compute; reflexivity..|].
  apply (isbn_never_shared demo_hash shelving 1 2 (dune 1 true) emma
           "9780441013593");
    solve [vm_compute; reflexivity | lia].
Defined.

Lemma stock_is_conserved_witness :
  ∃ b', book_table (run demo_hash [(member 1 20, BorrowBook 1)] (stocked 2)) !! 1
        = Some b'
        ∧ quantity b'
          + Z.of_nat (open_loans
                        (borrow_table
                           (run demo_hash [(member 1 20, BorrowBook 1)] (stocked 2)))
                        1)
          = 2 + Z.of_nat (open_loans (borrow_table (stocked 2)) 1).
Proof.
  apply (stock_is_conserved demo_hash [(member 1 20, BorrowBook 1)] (stocked 2) 1
           (dune 2 true)); vm_compute; reflexivity.
Defined.

Lemma borrow_then_return_witness :
  book_table
    (return_book (borrow (stocked 2) (member 1 20) 1).1 (member 1 40) 1).1
  = book_table (stocked 2).
Proof.
  destruct (borrow_then_return demo_hash (stocked 2) (member 1 20) (member 1 40)
              1 1 1 (dune 2 true)) as [H _].
  - apply run_reachable, reachable_init.
  - vm_compute; reflexivity.
  - vm_compute; reflexivity.
  - vm_compute; reflexivity.
  - simpl; lia.
  - exact H.
Defined.

Lemma dashboard_follows_loans_witness :
  dashboard (stocked 2) (member 1 50) = (stocked 2, Render (DashboardPage 1 1 0))
  ∧ dashboard (borrow (stocked 2) (member 1 20) 1).1 (member 1 50)
    = ((borrow (stocked 2) (member 1 20) 1).1, Render (DashboardPage 1 1 1))
  ∧ dashboard on_loan (member 1 50) = (on_loan, Render (DashboardPage 1 1 1))
  ∧ dashboard (return_book on_loan (member 1 40) 1).1 (member 1 50)
    = ((return_book on_loan (member 1 40) 1).1, Render (DashboardPage 1 1 0))
  ∧ dashboard (return_book brimful (member 1 40) 1).1 (member 1 50)
    = (brimful, Render (DashboardPage 1 1 1)).
Proof.
  destruct (dashboard_follows_loans (stocked 2) (member 1 50) 1)
    as (Hnow & Hborrow & _); [vm_compute; reflexivity|].
  destruct (dashboard_follows_loans on_loan (member 1 50) 1)
    as (Hlent & _ & Hreturn & _); [vm_compute; reflexivity|].
  destruct (dashboard_follows_loans brimful (member 1 50) 1)
    as (Hfull & _ & _ & Hover); [vm_compute; reflexivity|].
  split_and!.
  - rewrite Hnow. vm_compute. reflexivity.
  - rewrite (Hborrow (member 1 20) 1 1 (dune 2 true));
      [|vm_compute; reflexivity..|simpl; lia].
    vm_compute. reflexivity.
  - rewrite Hlent. vm_compute. reflexivity.
  - destruct (Hreturn (member 1 40) 1 1 (mkBorrow 1 1 20 None) (dune 0 false))
      as (n & Hcount & Hpage); [vm_compute; reflexivity..|by vm_compute|].
    rewrite Hpage. vm_compute in Hcount. injection Hcount as <-.
    vm_compute. reflexivity.
  - rewrite (Hover (member 1 40) 1 1 (mkBorrow 1 1 20 None)
               (dune max_integer true));
      [|vm_compute; reflexivity..|].
    + rewrite Hfull. vm_compute. reflexivity.
    + vm_compute. intros [_ Hle]. by apply Hle.
Defined.


Lemma delete_book_removes_witness :
  (delete_book (stocked 2) (member 1 30) 1).2
    = Redirect "books" (Some (info, "Book deleted."))
  ∧ book_table (delete_book (stocked 2) (member 1 30) 1).1 !! 1 = None
  ∧ borrow (delete_book (stocked 2) (member 1 30) 1).1 (member 1 30) 1
    = ((delete_book (stocked 2) (member 1 30) 1).1, NotFound).
Proof.
  destruct (delete_book_removes (stocked 2) (member 1 30) 1 1 (dune 2 true))
    as (Hresp & Hgone & _ & _ & _ & Hmissing).
  - vm_compute; reflexivity.
  - vm_compute; reflexivity.
  - intros (j & r & Hj & _). vm_compute in Hj. discriminate.
  - destruct Hmissing as [Hborrow _]; [by vm_compute|]. by split_and!.
Defined.

(** The id of a deleted book is free again: a book added next takes it,
    when it was the largest in the table. *)
Example deleted_id_is_taken_again :
  book_table
    (add_book (delete_book (stocked 2) (member 1 30) 1).1 (member 1 31)
       emma_form).1 !! 1
  = Some emma.
Proof. vm_compute. reflexivity. Qed.
